(** * Sentinel-3 OLCI level-2 processing: swath gridding, reclassification,
      clipping and temporal compositing.

    A shallow embedding of [s3_process_to_geotiff.py] and [s3_process.py].

    Numeric convention.  Pixel values are IEEE floating-point numbers in the
    Python sources.  They are embedded as the four-way sum [fval]: the
    not-a-number value, the two infinities, and the finite values, the latter
    carried by exact canonical rationals.  Comparisons, [isnan], [isfinite]
    and the special-value rules of addition and division follow IEEE 754 /
    NumPy; the rounding of finite results is not part of the embedding. *)

From Stdlib Require Import String Ascii DecimalString.
From Stdlib Require Import ZArith QArith Qcanon Qround List Bool Lia Lqa.
Import ListNotations.

Set Implicit Arguments.

(* ================================================================== *)
(** ** Floating-point values as NumPy sees them *)
(* ================================================================== *)

Module IEEE.

Inductive fval : Type :=
| NaN
| NInf
| PInf
| Fin (q : Qc).

Definition zero : fval := Fin (Q2Qc 0).

(** [np.isnan] *)
Definition isnan (v : fval) : bool :=
  match v with NaN => true | _ => false end.

(** [np.isfinite] *)
Definition isfinite (v : fval) : bool :=
  match v with Fin _ => true | _ => false end.

(** [np.isinf] *)
Definition isinf (v : fval) : bool :=
  match v with NInf | PInf => true | _ => false end.

Definition Qclt_bool (a b : Qc) : bool :=
  match (a ?= b)%Qc with Lt => true | _ => false end.

Definition Qcle_bool (a b : Qc) : bool :=
  match (a ?= b)%Qc with Gt => false | _ => true end.

(** [a < b] on floats: false as soon as one side is NaN. *)
Definition flt (a b : fval) : bool :=
  match a, b with
  | NaN, _ | _, NaN => false
  | NInf, NInf => false
  | NInf, _ => true
  | _, NInf => false
  | PInf, _ => false
  | Fin _, PInf => true
  | Fin x, Fin y => Qclt_bool x y
  end.

(** [a <= b] on floats. *)
Definition fle (a b : fval) : bool :=
  match a, b with
  | NaN, _ | _, NaN => false
  | NInf, _ => true
  | _, PInf => true
  | PInf, _ => false
  | Fin _, NInf => false
  | Fin x, Fin y => Qcle_bool x y
  end.

(** Addition with the IEEE rules for the special values. *)
Definition fadd (a b : fval) : fval :=
  match a, b with
  | NaN, _ | _, NaN => NaN
  | PInf, NInf | NInf, PInf => NaN
  | PInf, _ | _, PInf => PInf
  | NInf, _ | _, NInf => NInf
  | Fin x, Fin y => Fin (x + y)
  end.

(** Division of a float by an integer count, as [np.true_divide(tot, cnt)]
    does it: [0/0] is NaN, a non-zero value over [0] is an infinity. *)
Definition fdiv_count (a : fval) (n : nat) : fval :=
  match a, n with
  | NaN, _ => NaN
  | PInf, _ => PInf
  | NInf, _ => NInf
  | Fin x, O =>
      match (x ?= Q2Qc 0)%Qc with
      | Eq => NaN
      | Lt => NInf
      | Gt => PInf
      end
  | Fin x, S _ => Fin (x / Q2Qc (inject_Z (Z.of_nat n)))
  end.

End IEEE.
Export IEEE.

(* ================================================================== *)
(** ** The NumPy reductions the pipeline calls *)
(* ================================================================== *)

Module Numpy.

(** [np.fmin]: the smaller of two floats, a NaN operand being ignored. *)
Definition fmin (a b : fval) : fval :=
  match a, b with
  | NaN, _ => b
  | _, NaN => a
  | _, _ => if fle a b then a else b
  end.

(** [np.fmax]: the larger of two floats, a NaN operand being ignored. *)
Definition fmax (a b : fval) : fval :=
  match a, b with
  | NaN, _ => b
  | _, NaN => a
  | _, _ => if fle a b then b else a
  end.

(** [np.nanmin(a)]: [None] is the [ValueError] of a zero-size array; an
    all-NaN array gives NaN. *)
Definition nanmin (a : list fval) : option fval :=
  match a with
  | [] => None
  | x :: t => Some (fold_left fmin t x)
  end.

(** [np.nanmax(a)]. *)
Definition nanmax (a : list fval) : option fval :=
  match a with
  | [] => None
  | x :: t => Some (fold_left fmax t x)
  end.

(** [len(np.arange(start, stop, step))]: NumPy computes the length as
    [ceil((stop - start) / step)], an empty array when that is not
    positive.  [None] is the exception raised for a non-finite bound or a
    zero step. *)
Definition arange_len (start stop : fval) (step : Qc) : option nat :=
  match start, stop with
  | Fin a, Fin b =>
      if Qc_eq_dec step (Q2Qc 0) then None
      else Some (Z.to_nat (Qceiling ((b - a) / step)%Qc))
  | _, _ => None
  end.

(** [np.sum] of a one-dimensional float array. *)
Definition fsum (a : list fval) : fval := fold_left fadd a zero.

(** [np.nanmean] of the values found at one pixel across a stack: NaNs are
    replaced by [0] and summed, the total is divided by the number of
    non-NaN entries; with no such entry the quotient [0/0] is NaN. *)
Definition replace_nan (v : fval) : fval := if isnan v then zero else v.

Definition count_valid (a : list fval) : nat :=
  length (filter (fun v => negb (isnan v)) a).

Definition nanmean (a : list fval) : fval :=
  fdiv_count (fsum (map replace_nan a)) (count_valid a).

(** The arithmetic mean of a list of values, [sum / len]. *)
Definition mean (a : list fval) : fval := fdiv_count (fsum a) (length a).

End Numpy.
Export Numpy.

(* ================================================================== *)
(** ** Rasters and swaths *)
(* ================================================================== *)

Module Data.

(** A two-dimensional array, row-major: a list of rows. *)
Definition array2 : Type := list (list fval).

Definition get2 (a : array2) (i j : nat) : fval := nth j (nth i a []) NaN.

(** The array of shape [(h, w)] whose entry [(i, j)] is [f i j]. *)
Definition tabulate (h w : nat) (f : nat -> nat -> fval) : array2 :=
  map (fun i => map (f i) (seq 0 w)) (seq 0 h).

Definition has_shape (a : array2) (h w : nat) : Prop :=
  List.length a = h /\ Forall (fun row => List.length row = w) a.

(** A north-up geotransform: upper-left corner and pixel size.  Every
    raster of the pipeline is written with both rotation terms [0] and a
    negative row step, so the six GDAL coefficients are
    [origin_x, res_x, 0, origin_y, 0, - res_y]. *)
Record GeoTransform : Type := {
  origin_x : Qc;
  origin_y : Qc;
  res_x : Qc;
  res_y : Qc
}.

(** The dataset profile [src.meta] of rasterio. *)
Record Meta : Type := {
  driver : string;
  dtype : string;
  nodata : option fval;
  width : nat;
  height : nat;
  count : nat;
  crs : string;
  transform : GeoTransform
}.

(** A raster file: its profile and its first band. *)
Record Raster : Type := {
  meta : Meta;
  band : array2
}.

Definition well_formed (r : Raster) : Prop :=
  has_shape (band r) (height (meta r)) (width (meta r)) /\
  (Q2Qc 0 < res_x (transform (meta r)))%Qc /\
  (Q2Qc 0 < res_y (transform (meta r)))%Qc.

(** One pixel of a swath: the measurement and its geolocation.  The three
    arrays [tsm], [lat], [lon] of a product have one shape, so a swath is
    the row-major list of its co-indexed triples. *)
Record pixel : Type := {
  tsm : fval;
  lat : fval;
  lon : fval
}.

Definition Swath : Type := list pixel.

(** [pyresample.geometry.AreaDefinition]: the target lattice. *)
Record AreaDefinition : Type := {
  area_width : nat;
  area_height : nat;
  lon_min : Qc;
  lat_min : Qc;
  lon_max : Qc;
  lat_max : Qc
}.

End Data.
Export Data.

(* ================================================================== *)
(** ** Step 3: swath to grid ([create_geotiff_from_swath]) *)
(* ================================================================== *)

Module Gridding.

(** [mask = np.isfinite(tsm) & np.isfinite(lat) & np.isfinite(lon)] *)
Definition valid (p : pixel) : bool :=
  isfinite (tsm p) && isfinite (lat p) && isfinite (lon p).

Definition mask (sw : Swath) : list bool := map valid sw.

(** [np.sum(mask)] *)
Definition mask_sum (sw : Swath) : nat := List.length (filter valid sw).

Definition qc_of (v : fval) : option Qc :=
  match v with Fin q => Some q | _ => None end.

(** The lattice of [create_geotiff_from_swath], from [lat_min, lat_max =
    np.nanmin(lat), np.nanmax(lat)] to the [AreaDefinition]: the extent is
    taken over the whole latitude and longitude arrays, the counts are the
    lengths of the two [np.arange] calls.  [None] when a NumPy call raises. *)
Definition grid_definition (sw : Swath) (res_deg : Qc) : option AreaDefinition :=
  match nanmin (map lat sw), nanmax (map lat sw),
        nanmin (map lon sw), nanmax (map lon sw) with
  | Some la0, Some la1, Some lo0, Some lo1 =>
      match arange_len la0 la1 res_deg, arange_len lo0 lo1 res_deg,
            qc_of la0, qc_of la1, qc_of lo0, qc_of lo1 with
      | Some n_lat, Some n_lon, Some a0, Some a1, Some o0, Some o1 =>
          Some {| area_width := n_lon; area_height := n_lat;
                  lon_min := o0; lat_min := a0; lon_max := o1; lat_max := a1 |}
      | _, _, _, _, _, _ => None
      end
  | _, _, _, _ => None
  end.

Definition of_nat (n : nat) : Qc := Q2Qc (inject_Z (Z.of_nat n)).
Definition half : Qc := Q2Qc (1 # 2).

(** Centre of the cell in row [i], column [j] of an area: row [0] is the
    northern edge. *)
Definition cell_lon (ad : AreaDefinition) (j : nat) : Qc :=
  (lon_min ad +
   (of_nat j + half) * ((lon_max ad - lon_min ad) / of_nat (area_width ad)))%Qc.

Definition cell_lat (ad : AreaDefinition) (i : nat) : Qc :=
  (lat_max ad -
   (of_nat i + half) * ((lat_max ad - lat_min ad) / of_nat (area_height ad)))%Qc.

Section Resample.

(** Distance in metres between two (lon, lat) positions, as the k-d tree of
    pyresample measures it on the Cartesian images of the points. *)
Variable dist : Qc * Qc -> Qc * Qc -> Qc.

(** [radius_of_influence=5000] *)
Definition radius_of_influence : Qc := Q2Qc 5000.

(** A swath sample takes part in the search when its position is a valid
    longitude and latitude and it lies within the radius of the centre
    (the k-d tree returns the neighbours closer than its upper bound). *)
Definition candidate (c : Qc * Qc) (p : pixel) : option (Qc * fval) :=
  match lon p, lat p with
  | Fin x, Fin y =>
      if Qcle_bool (- Q2Qc 180) x && Qcle_bool x (Q2Qc 180) &&
         Qcle_bool (- Q2Qc 90) y && Qcle_bool y (Q2Qc 90) &&
         Qclt_bool (dist c (x, y)) radius_of_influence
      then Some (dist c (x, y), tsm p)
      else None
  | _, _ => None
  end.

(** [neighbours=1]: the closest candidate, the earliest one among equals. *)
Fixpoint nearest (c : Qc * Qc) (sw : Swath) (best : option (Qc * fval))
  : option (Qc * fval) :=
  match sw with
  | [] => best
  | p :: rest =>
      match candidate c p, best with
      | Some (d, v), Some (d0, _) =>
          nearest c rest (if Qclt_bool d d0 then Some (d, v) else best)
      | Some dv, None => nearest c rest (Some dv)
      | None, _ => nearest c rest best
      end
  end.

(** [get_sample_from_neighbour_info("nn", ..., fill_value=np.nan)]: each
    cell receives the measurement of its nearest neighbour, or the fill
    value when the search found none. *)
Definition sample (ad : AreaDefinition) (sw : Swath) (i j : nat) : fval :=
  match nearest (cell_lon ad j, cell_lat ad i) sw None with
  | Some (_, v) => v
  | None => NaN
  end.

Definition resample (sw : Swath) (ad : AreaDefinition) : array2 :=
  tabulate (area_height ad) (area_width ad) (sample ad sw).

End Resample.

End Gridding.
Export Gridding.

(* ================================================================== *)
(** ** Effects: standard output, the directories of rasters, exceptions *)
(* ================================================================== *)

Module Effects.

(** The exceptions that escape the library calls of the pipeline. *)
Inductive exn : Type :=
| ValueError          (* [np.arange] without a length; an unknown interval *)
| ZeroSizeRaster      (* GDAL: a raster with no column or no row *)
| NoDataInBounds      (* rioxarray: nothing of the raster is inside the ROI *)
| IndexError.         (* Python: [srcs[0]] of an empty list *)

(** The sub-folders of [BASE_DIRECTORY] the pipeline writes into. *)
Inductive dir : Type :=
| geotiff_dir
| recl_dir
| clip_dir
| composite_dir.

Definition dir_eqb (a b : dir) : bool :=
  match a, b with
  | geotiff_dir, geotiff_dir | recl_dir, recl_dir
  | clip_dir, clip_dir | composite_dir, composite_dir => true
  | _, _ => false
  end.

Record world : Type := {
  stdout : list string;
  files : list (dir * string * Raster)
}.

Inductive result (A : Type) : Type :=
| Ok (a : A)
| Raise (e : exn).
Arguments Ok {A} a.
Arguments Raise {A} e.

(** A computation: it reads and changes the world, and either returns or
    raises.  Standard output is the list of the lines printed; a line is
    recorded without the blank line some messages start with. *)
Definition M (A : Type) : Type := world -> result A * world.

Definition ret {A} (a : A) : M A := fun w => (Ok a, w).

Definition bind {A B} (m : M A) (k : A -> M B) : M B :=
  fun w =>
    match m w with
    | (Ok a, w') => k a w'
    | (Raise e, w') => (Raise e, w')
    end.

Definition raise {A} (e : exn) : M A := fun w => (Raise e, w).

Definition print (line : string) : M unit :=
  fun w => (Ok tt, {| stdout := stdout w ++ [line]; files := files w |}).

Definition same_path (d : dir) (name : string) (f : dir * string * Raster) : bool :=
  dir_eqb d (fst (fst f)) && String.eqb name (snd (fst f)).

(** Creating a file replaces an older file of the same path. *)
Definition write_raster (d : dir) (name : string) (r : Raster) : M unit :=
  fun w =>
    (Ok tt,
     {| stdout := stdout w;
        files := filter (fun f => negb (same_path d name f)) (files w)
                 ++ [(d, name, r)] |}).

Definition ends_with (suffix s : string) : bool :=
  let n := String.length s in
  let k := String.length suffix in
  (k <=? n)%nat && String.eqb (substring (n - k) k s) suffix.

(** [d.glob("*.tif")] of [pathlib]: the rasters of one folder, sub-folders
    excluded, in the order the folder lists them (here the order of
    creation).  A name that starts with a dot is listed like any other. *)
Definition tif_files (d : dir) (w : world) : list (string * Raster) :=
  map (fun f => (snd (fst f), snd f))
    (filter (fun f => dir_eqb d (fst (fst f)) && ends_with ".tif" (snd (fst f)))
       (files w)).

Definition glob_tif (d : dir) : M (list (string * Raster)) :=
  fun w => (Ok (tif_files d w), w).

(** [glob.glob(str(d / "*.tif"))] of the [glob] module: the same listing
    without the names that start with a dot, which [*] does not match
    there. *)
Definition hidden (name : string) : bool := String.prefix "." name.

Definition visible_tif_files (d : dir) (w : world) : list (string * Raster) :=
  filter (fun t => negb (hidden (fst t))) (tif_files d w).

Definition glob_glob_tif (d : dir) : M (list (string * Raster)) :=
  fun w => (Ok (visible_tif_files d w), w).

(** A [for] loop: the body runs on each element in turn, and an exception
    raised by the body leaves the loop. *)
Fixpoint for_each {A} (l : list A) (body : A -> M unit) : M unit :=
  match l with
  | [] => ret tt
  | x :: rest => bind (body x) (fun _ => for_each rest body)
  end.

Declare Scope run_scope.
Delimit Scope run_scope with run.
Notation "x <- m ;; k" := (bind m (fun x => k))
  (at level 61, m at next level, right associativity) : run_scope.
Notation "m ;;; k" := (bind m (fun _ => k))
  (at level 61, right associativity) : run_scope.

End Effects.
Export Effects.

(* ================================================================== *)
(** ** Step 2: deleting the netCDF files that are not needed
       ([cleanup_netcdf_files]) *)
(* ================================================================== *)

Module Housekeeping.

(** What [os.path.isfile] and [os.path.isdir] tell of a directory entry. *)
Inductive kind : Type :=
| regular_file
| subdirectory
| other_kind.

Definition isfile (k : kind) : bool :=
  match k with regular_file => true | _ => false end.

(** An entry of the base directory; of a folder the pipeline only ever
    looks at the names and kinds of its direct entries.  A directory holds
    each name once. *)
Inductive entry : Type :=
| File
| Folder (content : list (string * kind))
| Special.

Definition FILES_TO_KEEP : list string :=
  [ "cloud.nc"; "common_flags.nc"; "cqsf.nc"; "geo_coordinates.nc";
    "iop_nn.nc"; "par.nc"; "tie_geo_coordinates.nc"; "tie_geometries.nc";
    "time_coordinates.nc"; "tsm_nn.nc"; "trsp.nc"; "wqsf.nc" ]%string.

(** [f in FILES_TO_KEEP] *)
Definition to_keep (f : string) : bool :=
  existsb (String.eqb f) FILES_TO_KEEP.

(** The two counters of the function. *)
Record tally : Type := {
  deleted : nat;
  kept : nat
}.

(** The inner loop over [os.listdir(folder_path)]: a regular file that is
    not on the list is removed and counted as deleted, a regular file on the
    list is counted as kept, anything else is passed over.  Returns what is
    left of the folder and the counters. *)
Fixpoint clean_folder (content : list (string * kind)) (t : tally)
  : list (string * kind) * tally :=
  match content with
  | [] => ([], t)
  | (f, k) :: rest =>
      if isfile k && negb (to_keep f) then
        clean_folder rest {| deleted := S (deleted t); kept := kept t |}
      else if isfile k then
        let (rest', t') :=
          clean_folder rest {| deleted := deleted t; kept := S (kept t) |} in
        ((f, k) :: rest', t')
      else
        let (rest', t') := clean_folder rest t in
        ((f, k) :: rest', t')
  end.

(** The outer loop over [os.listdir(base_directory)]: a directory whose
    name ends with [.SEN3] is announced and cleaned. *)
Fixpoint clean_folders (base : list (string * entry)) (t : tally)
  : list (string * entry) * tally * list string :=
  match base with
  | [] => ([], t, [])
  | (folder, e) :: rest =>
      match e with
      | Folder content =>
          if ends_with ".SEN3" folder then
            let (content', t1) := clean_folder content t in
            let '(rest', t2, out) := clean_folders rest t1 in
            ((folder, Folder content') :: rest', t2,
             ("📂 " ++ folder)%string :: out)
          else
            let '(rest', t2, out) := clean_folders rest t in
            ((folder, e) :: rest', t2, out)
      | _ =>
          let '(rest', t2, out) := clean_folders rest t in
          ((folder, e) :: rest', t2, out)
      end
  end.

Definition string_of_nat (n : nat) : string :=
  NilEmpty.string_of_uint (Nat.to_uint n).

(** [cleanup_netcdf_files(base_directory)]: the directory it leaves, its
    counters, and the lines it prints (the last one without the empty line
    that follows it).  Every [os.remove] is taken to succeed. *)
Definition cleanup_netcdf_files (base : list (string * entry))
  : list (string * entry) * tally * list string :=
  let '(base', t, out) := clean_folders base {| deleted := 0; kept := 0 |} in
  (base', t,
   out ++ [("STEP 2 COMPLETE: Deleted " ++ string_of_nat (deleted t)
            ++ ", kept " ++ string_of_nat (kept t))%string]).

End Housekeeping.
Export Housekeeping.

(* ================================================================== *)
(** ** Step 3, continued: writing the gridded raster *)
(* ================================================================== *)

Module Step3.

Section WithDistance.

Variable dist : Qc * Qc -> Qc * Qc -> Qc.

Local Open Scope run_scope.

(** [create_geotiff_from_swath(tsm_nc, geo_nc, out_tif, res_deg)].  The
    raster takes the data type of the measurement array, [float32] for the
    [TSM_NN] variable. *)
Definition create_geotiff_from_swath
  (sw : Swath) (out_name : string) (res_deg : Qc) : M unit :=
  if (mask_sum sw =? 0)%nat then
    print "   No valid pixels"
  else
    match grid_definition sw res_deg with
    | None => raise ValueError
    | Some ad =>
        if (area_width ad =? 0)%nat || (area_height ad =? 0)%nat then
          raise ZeroSizeRaster
        else
          let grid := resample dist sw ad in
          write_raster geotiff_dir out_name
            {| meta :=
                 {| driver := "GTiff";
                    dtype := "float32";
                    nodata := Some NaN;
                    width := area_width ad;
                    height := area_height ad;
                    count := 1;
                    crs := "EPSG:4326";
                    transform :=
                      {| origin_x := lon_min ad;
                         origin_y := lat_max ad;
                         res_x := (lon_max ad - lon_min ad) / of_nat (area_width ad);
                         res_y := (lat_max ad - lat_min ad) / of_nat (area_height ad) |} |};
               band := grid |} ;;;
          print ("  ✓ Saved " ++ out_name)
    end.

(** A product folder [<ID>.SEN3]: its name and, when both [tsm_nn.nc] and
    [geo_coordinates.nc] exist, the swath they hold. *)
Record Product : Type := {
  sen3_name : string;
  netcdf : option Swath
}.

Definition OUTPUT_RES_DEG : Qc := Q2Qc (27 # 10000).

(** The loop of [main] under "STEP 3". *)
Definition step3 (products : list Product) : M unit :=
  for_each products (fun p =>
    match netcdf p with
    | Some sw =>
        create_geotiff_from_swath sw ("TSM_" ++ sen3_name p ++ ".tif")
          OUTPUT_RES_DEG
    | None => ret tt
    end).

End WithDistance.

End Step3.
Export Step3.

(* ================================================================== *)
(** ** Step 4: reclassification ([reclassify_negative_to_zero]) *)
(* ================================================================== *)

Module Reclassify.

(** [np.where((data < 0) & ~np.isnan(data), 0, data)] at one pixel. *)
Definition reclass_value (v : fval) : fval :=
  if flt v zero && negb (isnan v) then zero else v.

(** The raster written to [out_tif]: the profile of the source, copied,
    and the reclassified band. *)
Definition reclassify_negative_to_zero (src : Raster) : Raster :=
  {| meta := meta src;
     band := map (map reclass_value) (band src) |}.

Local Open Scope run_scope.

(** The loop of [main] under "STEP 4". *)
Definition step4 : M unit :=
  tifs <- glob_tif geotiff_dir ;;
  for_each tifs (fun t =>
    write_raster recl_dir (fst t) (reclassify_negative_to_zero (snd t))).

End Reclassify.
Export Reclassify.

(* ================================================================== *)
(** ** Step 5: clipping to the region of interest ([clip_geotiff]) *)
(* ================================================================== *)

Module Clip.

(** Centre of the pixel in row [i], column [j] of a north-up raster. *)
Definition pixel_x (t : GeoTransform) (j : nat) : Qc :=
  (origin_x t + (of_nat j + half) * res_x t)%Qc.

Definition pixel_y (t : GeoTransform) (i : nat) : Qc :=
  (origin_y t - (of_nat i + half) * res_y t)%Qc.

(** [left, bottom, right, top] of a raster. *)
Definition left (m : Meta) : Qc := origin_x (transform m).
Definition top (m : Meta) : Qc := origin_y (transform m).
Definition right (m : Meta) : Qc :=
  (origin_x (transform m) + of_nat (width m) * res_x (transform m))%Qc.
Definition bottom (m : Meta) : Qc :=
  (origin_y (transform m) - of_nat (height m) * res_y (transform m))%Qc.

(** IEEE equality: NaN equals nothing. *)
Definition feqb (a b : fval) : bool := fle a b && fle b a.

(** [rioxarray.open_rasterio(..., masked=True)]: the pixels holding the
    no-data value of the file are read as NaN. *)
Definition read_masked (nd : option fval) (v : fval) : fval :=
  match nd with
  | Some s => if feqb v s then NaN else v
  | None => v
  end.

(** [to_raster]: NaN pixels are written back as the no-data value. *)
Definition write_masked (nd : option fval) (v : fval) : fval :=
  match nd with
  | Some s => if isnan v then s else v
  | None => v
  end.

(** Index of the first and of the last [true] of a list. *)
Fixpoint first_true (l : list bool) : option nat :=
  match l with
  | [] => None
  | true :: _ => Some O
  | false :: t => option_map S (first_true t)
  end.

Definition last_true (l : list bool) : option nat :=
  option_map (fun k => (List.length l - 1 - k)%nat) (first_true (rev l)).

Section WithGeometry.

(** The vector side is the business of geopandas and rasterio: a geometry
    type, the reprojection of a geometry from one CRS to another, the test
    "this position is inside the geometry", and the bounding box
    [(minx, miny, maxx, maxy)] of a geometry. *)
Variable Geometry : Type.
Variable to_crs : string -> string -> Geometry -> Geometry.
Variable covers : Geometry -> Qc -> Qc -> bool.
Variable total_bounds : Geometry -> Qc * Qc * Qc * Qc.

Record ROI : Type := {
  roi_crs : string;
  roi_geometry : Geometry
}.

(** [geometry_mask(..., invert=True, all_touched=False)]: a pixel is kept
    when its centre is inside the geometry. *)
Definition clip_mask (m : Meta) (g : Geometry) (i j : nat) : bool :=
  covers g (pixel_x (transform m) j) (pixel_y (transform m) i).

Definition row_has (m : Meta) (g : Geometry) (i : nat) : bool :=
  existsb (clip_mask m g i) (seq 0 (width m)).

Definition col_has (m : Meta) (g : Geometry) (j : nat) : bool :=
  existsb (fun i => clip_mask m g i j) (seq 0 (height m)).

(** [if raster.rio.crs != roi.crs: roi = roi.to_crs(raster.rio.crs)] *)
Definition roi_in_raster_crs (m : Meta) (roi : ROI) : Geometry :=
  if String.eqb (crs m) (roi_crs roi) then roi_geometry roi
  else to_crs (roi_crs roi) (crs m) (roi_geometry roi).

(** [raster.rio.clip(geometry, crs)] with its defaults ([drop=True]): the
    raster is cut to the rows and columns that hold a kept pixel, the other
    pixels of that window become NaN; when no pixel is kept the call raises
    [NoDataInBounds]. *)
Definition rio_clip (r : Raster) (g : Geometry) : result Raster :=
  let m := meta r in
  let rows := map (row_has m g) (seq 0 (height m)) in
  let cols := map (col_has m g) (seq 0 (width m)) in
  match first_true rows, last_true rows, first_true cols, last_true cols with
  | Some i0, Some i1, Some j0, Some j1 =>
      let h := (i1 - i0 + 1)%nat in
      let w := (j1 - j0 + 1)%nat in
      Ok {| meta :=
              {| driver := driver m;
                 dtype := dtype m;
                 nodata := nodata m;
                 width := w;
                 height := h;
                 count := count m;
                 crs := crs m;
                 transform :=
                   {| origin_x := origin_x (transform m)
                                  + of_nat j0 * res_x (transform m);
                      origin_y := origin_y (transform m)
                                  - of_nat i0 * res_y (transform m);
                      res_x := res_x (transform m);
                      res_y := res_y (transform m) |} |};
            band :=
              tabulate h w (fun i j =>
                write_masked (nodata m)
                  (if clip_mask m g (i0 + i) (j0 + j)
                   then read_masked (nodata m) (get2 (band r) (i0 + i) (j0 + j))
                   else NaN)) |}
  | _, _, _, _ => Raise NoDataInBounds
  end.

(** [clip_geotiff(geotiff, shapefile, output)]: the region is brought to
    the CRS of the raster, the raster is clipped and written (the LZW
    compression of the file leaves its content as it is); the exception of
    [rio.clip] is not caught. *)
Definition clip_geotiff (geotiff : Raster) (roi : ROI) (output : string) : M unit :=
  match rio_clip geotiff (roi_in_raster_crs (meta geotiff) roi) with
  | Ok clipped => write_raster clip_dir output clipped
  | Raise e => raise e
  end.

Local Open Scope run_scope.

(** The loop of [main] under "STEP 5": there is no [try] around the call. *)
Definition step5 (roi : ROI) : M unit :=
  tifs <- glob_tif recl_dir ;;
  for_each tifs (fun t => clip_geotiff (snd t) roi (fst t)).

(** The extent of the raster and the bounding box of the region have no
    point in common. *)
Definition disjoint_extents (m : Meta) (g : Geometry) : Prop :=
  let '(minx, miny, maxx, maxy) := total_bounds g in
  (maxx < left m \/ right m < minx \/ maxy < bottom m \/ top m < miny)%Qc.

End WithGeometry.

End Clip.
Export Clip.

(* ================================================================== *)
(** ** Step 6: daily composites ([merge_and_average] and the grouping) *)
(* ================================================================== *)

Module Composite.

(** Python's [round] to an integer: halves go to the even neighbour. *)
Definition py_round (q : Qc) : Z :=
  let f := Qfloor q in
  match (q - Q2Qc (inject_Z f) ?= half)%Qc with
  | Lt => f
  | Gt => (f + 1)%Z
  | Eq => if Z.even f then f else (f + 1)%Z
  end.

Definition Qcmin (a b : Qc) : Qc := if Qcle_bool a b then a else b.
Definition Qcmax (a b : Qc) : Qc := if Qcle_bool a b then b else a.

(** The output lattice of [rasterio.merge.merge(srcs)]: the union of the
    bounds of the sources at the resolution of the first one, the numbers of
    rows and columns being [int(round(extent / res))].  Returns the shape
    [(rows, columns)] of the merged array and its transform. *)
Definition merge_grid (first : Raster) (others : list Raster)
  : nat * nat * GeoTransform :=
  let ms := map meta others in
  let dst_w := fold_left Qcmin (map left ms) (left (meta first)) in
  let dst_s := fold_left Qcmin (map bottom ms) (bottom (meta first)) in
  let dst_e := fold_left Qcmax (map right ms) (right (meta first)) in
  let dst_n := fold_left Qcmax (map top ms) (top (meta first)) in
  let rx := res_x (transform (meta first)) in
  let ry := res_y (transform (meta first)) in
  (Z.to_nat (py_round ((dst_n - dst_s) / ry)),
   Z.to_nat (py_round ((dst_e - dst_w) / rx)),
   {| origin_x := dst_w; origin_y := dst_n; res_x := rx; res_y := ry |}).

(** [rasterio.warp.reproject] between two north-up lattices of one CRS with
    the default nearest-neighbour resampling: a destination pixel takes the
    value of the source pixel that contains its centre, and [dst_nodata]
    (NaN) where the centre falls outside the source array. *)
Definition reproject (arr : array2) (src_transform : GeoTransform)
  (h w : nat) (dst_transform : GeoTransform) : array2 :=
  tabulate h w (fun i j =>
    let x := pixel_x dst_transform j in
    let y := pixel_y dst_transform i in
    let c := Qfloor ((x - origin_x src_transform) / res_x src_transform)%Qc in
    let r := Qfloor ((origin_y src_transform - y) / res_y src_transform)%Qc in
    if (0 <=? r)%Z && (r <? Z.of_nat (List.length arr))%Z &&
       (0 <=? c)%Z && (c <? Z.of_nat (List.length (nth (Z.to_nat r) arr [])))%Z
    then get2 arr (Z.to_nat r) (Z.to_nat c)
    else NaN).

(** [np.nanmean(np.stack(stack), axis=0)] for arrays of shape [(h, w)]. *)
Definition nanmean_axis0 (h w : nat) (stack : list array2) : array2 :=
  tabulate h w (fun i j => nanmean (map (fun a => get2 a i j) stack)).

(** [merge_and_average(files)]: the averaged array with its shape (the
    [arr.shape] that [main] reads), the transform of the merge, and a copy
    of the profile of the first file.  An empty list of files raises. *)
Definition merge_and_average (srcs : list Raster)
  : result (array2 * (nat * nat) * GeoTransform * Meta) :=
  match srcs with
  | [] => Raise IndexError
  | first :: others =>
      let '(h, w, t) := merge_grid first others in
      let stack :=
        map (fun src => reproject (band src) (transform (meta src)) h w t) srcs in
      Ok (nanmean_axis0 h w stack, (h, w), t, meta first)
  end.

(** The raster written for one date: the profile returned by
    [merge_and_average] after [meta.update(height=..., width=...,
    transform=..., nodata=np.nan, count=1)]. *)
Definition composite_raster (arr : array2) (shape : nat * nat)
  (t : GeoTransform) (m : Meta) : Raster :=
  {| meta :=
       {| driver := driver m;
          dtype := dtype m;
          nodata := Some NaN;
          width := snd shape;
          height := fst shape;
          count := 1;
          crs := crs m;
          transform := t |};
     band := arr |}.

(** *** The date key: [re.compile(r"(\d{8})").search(basename)] *)

Definition is_digit (c : ascii) : bool :=
  let n := nat_of_ascii c in (48 <=? n)%nat && (n <=? 57)%nat.

(** The [n] characters at the head of [s] when all are digits. *)
Fixpoint digits_at (n : nat) (s : string) : option string :=
  match n with
  | O => Some EmptyString
  | S n' =>
      match s with
      | String c s' =>
          if is_digit c then option_map (String c) (digits_at n' s') else None
      | EmptyString => None
      end
  end.

(** The leftmost run of eight digits, [m.group(1)], or [None]. *)
Fixpoint search_date (s : string) : option string :=
  match digits_at 8 s with
  | Some d => Some d
  | None =>
      match s with
      | EmptyString => None
      | String _ s' => search_date s'
      end
  end.

(** [grouped.setdefault(key, []).append(f)] on an insertion-ordered
    dictionary. *)
Fixpoint setdefault_append {A} (key : string) (f : A)
  (grouped : list (string * list A)) : list (string * list A) :=
  match grouped with
  | [] => [(key, [f])]
  | (k, l) :: rest =>
      if String.eqb k key then (k, l ++ [f]) :: rest
      else (k, l) :: setdefault_append key f rest
  end.

(** The grouping loop of [main]: a file whose name has no date key is
    passed over, and nothing is printed. *)
Fixpoint group_files {A} (files : list (string * A))
  (grouped : list (string * list A)) : list (string * list A) :=
  match files with
  | [] => grouped
  | (name, f) :: rest =>
      match search_date name with
      | Some key => group_files rest (setdefault_append key f grouped)
      | None => group_files rest grouped
      end
  end.

Local Open Scope run_scope.

(** The two loops of [main] under "STEP 6". *)
Definition step6 : M unit :=
  files <- glob_glob_tif clip_dir ;;
  let grouped := group_files files [] in
  for_each grouped (fun g =>
    match merge_and_average (snd g) with
    | Ok (arr, shape, trans, m) =>
        write_raster composite_dir ("TSM_daily_" ++ fst g ++ ".tif")
          (composite_raster arr shape trans m)
    | Raise e => raise e
    end).

End Composite.
Export Composite.

(* ================================================================== *)
(** ** The pipeline: [main], from step 3 on *)
(* ================================================================== *)

Module Pipeline.

Section Main.

Variable dist : Qc * Qc -> Qc * Qc -> Qc.
Variable Geometry : Type.
Variable to_crs : string -> string -> Geometry -> Geometry.
Variable covers : Geometry -> Qc -> Qc -> bool.

Local Open Scope run_scope.

(** Steps 1 and 2 (unzipping, deleting the unused netCDF files) only
    prepare the product folders; [main] is entered here with the folders
    they leave behind. *)
Definition main (products : list Product) (roi : ROI Geometry) : M unit :=
  print "STEP 3: CREATE GEOTIFFS" ;;;
  step3 dist products ;;;
  print "STEP 4: RECLASSIFY NEGATIVE TSM VALUES" ;;;
  step4 ;;;
  print "STEP 5: CLIP GEOTIFFS" ;;;
  step5 to_crs covers roi ;;;
  print "STEP 6: MAKE DAILY COMPOSITES" ;;;
  step6 ;;;
  print "PIPELINE COMPLETE ✔".

End Main.

End Pipeline.
Export Pipeline.

(* ================================================================== *)
(** ** [s3_process.py]: time stamps, stacking, temporal aggregation *)
(* ================================================================== *)

Module Stacking.

(** [s.split("_")] *)
Fixpoint split_on (sep : ascii) (s : string) (cur : string) : list string :=
  match s with
  | EmptyString => [cur]
  | String c s' =>
      if Ascii.eqb c sep then cur :: split_on sep s' EmptyString
      else split_on sep s' (cur ++ String c EmptyString)
  end.

Definition split_underscore (s : string) : list string :=
  split_on "_"%char s EmptyString.

(** Position of the last ["."] of a name, counted from the left. *)
Fixpoint rfind_dot (s : string) (pos : nat) (found : option nat) : option nat :=
  match s with
  | EmptyString => found
  | String c s' =>
      rfind_dot s' (S pos) (if Ascii.eqb c "."%char then Some pos else found)
  end.

(** [Path.stem]: the name without its last suffix; a leading or trailing
    dot starts no suffix. *)
Definition stem (name : string) : string :=
  match rfind_dot name 0 None with
  | Some i =>
      if (0 <? i)%nat && (i <? String.length name - 1)%nat
      then substring 0 i name
      else name
  | None => name
  end.

Definition starts_with (p s : string) : bool := String.prefix p s.

(** [get_season(month)] of [aggregate_stack] *)
Definition get_season (month : nat) : string :=
  if ((month =? 12) || (month =? 1) || (month =? 2))%nat then "Winter"
  else if ((month =? 3) || (month =? 4) || (month =? 5))%nat then "Spring"
  else if ((month =? 6) || (month =? 7) || (month =? 8))%nat then "Summer"
  else "Fall".

Section WithClock.

(** [datetime.strptime(part, "%Y%m%dT%H%M%S")]: [None] stands for the
    [ValueError] of a part that does not parse. *)
Variable datetime : Type.
Variable strptime : string -> option datetime.

(** The loop over the parts of the stem, inside the [try]: the first part
    of fifteen characters that starts with ["20"] decides. *)
Fixpoint scan_parts (parts : list string) : option datetime :=
  match parts with
  | [] => None
  | part :: rest =>
      if (String.length part =? 15)%nat && starts_with "20" part
      then strptime part
      else scan_parts rest
  end.

Local Open Scope run_scope.

(** [extract_datetime_from_filename(filepath)]; the messages of this script
    are recorded without the pictogram they start with. *)
Definition extract_datetime_from_filename (name : string) : M (option datetime) :=
  match scan_parts (split_underscore (stem name)) with
  | Some t => ret (Some t)
  | None =>
      print ("Could not extract timestamp from " ++ name) ;;;
      ret None
  end.

(** What [rioxarray.open_rasterio(f).squeeze()] and [expand_dims] make of
    a file: the array, or the exception they raise, kept as its message
    [str(e)]. *)
Inductive opened : Type :=
| Loaded (da : array2)
| Failed (message : string).

(** Step 4D: every file is announced; a file without a time stamp is left
    out of the stack, a file that cannot be opened is reported with the
    message of the exception and left out. *)
Fixpoint load_dataarrays (files : list (string * opened))
  (dataarrays : list (datetime * array2)) : M (list (datetime * array2)) :=
  match files with
  | [] => ret dataarrays
  | (name, content) :: rest =>
      print ("Processing: " ++ name) ;;;
      timestamp <- extract_datetime_from_filename name ;;
      match timestamp with
      | None => load_dataarrays rest dataarrays
      | Some t =>
          match content with
          | Loaded da => load_dataarrays rest (dataarrays ++ [(t, da)])
          | Failed message =>
              print ("Skipping " ++ name ++ " due to error: " ++ message) ;;;
              load_dataarrays rest dataarrays
          end
      end
  end.

(** [aggregate_stack(ds, interval)].  The period of a time is computed by
    pandas for the daily, weekly, monthly and annual intervals (the start of
    the day, week, month, year), and by [get_season] from the month for the
    seasonal one; any other interval raises [ValueError]. *)
Variable floor_day week_start month_start year_start : datetime -> datetime.
Variable month_of : datetime -> nat.
Variable datetime_eqb : datetime -> datetime -> bool.

Inductive period : Type :=
| Stamp (t : datetime)
| Season (s : string).

Definition period_eqb (a b : period) : bool :=
  match a, b with
  | Stamp x, Stamp y => datetime_eqb x y
  | Season x, Season y => String.eqb x y
  | _, _ => false
  end.

Definition period_of (interval : string) (t : datetime) : result period :=
  if String.eqb interval "daily" then Ok (Stamp (floor_day t))
  else if String.eqb interval "weekly" then Ok (Stamp (week_start t))
  else if String.eqb interval "monthly" then Ok (Stamp (month_start t))
  else if String.eqb interval "annual" then Ok (Stamp (year_start t))
  else if String.eqb interval "seasonal" then Ok (Season (get_season (month_of t)))
  else Raise ValueError.

(** The arrays of the stack whose time falls in period [p]. *)
Definition members (interval : string) (ds : list (datetime * array2))
  (p : period) : list array2 :=
  map snd
    (filter (fun e => match period_of interval (fst e) with
                      | Ok q => period_eqb q p
                      | Raise _ => false
                      end) ds).

(** [ds.groupby("period").mean(dim="time", skipna=True)] for a stack of
    arrays of shape [(h, w)]: the members of one period are averaged pixel
    by pixel, NaNs skipped.  The aggregate is given by its slice at each
    period, [None] at a period without member. *)
Definition aggregate_stack (h w : nat) (ds : list (datetime * array2))
  (interval : string) : result (period -> option array2) :=
  if String.eqb interval "daily" || String.eqb interval "weekly"
     || String.eqb interval "monthly" || String.eqb interval "annual"
     || String.eqb interval "seasonal"
  then Ok (fun p =>
             match members interval ds p with
             | [] => None
             | group => Some (nanmean_axis0 h w group)
             end)
  else Raise ValueError.

End WithClock.

End Stacking.
Export Stacking.

(* ================================================================== *)
(** ** Vocabulary of the specification *)
(* ================================================================== *)

Module Vocabulary.

(** A pixel is a no-data pixel of a raster when it holds the no-data value
    of the profile; a NaN sentinel is matched by NaN pixels. *)
Definition is_nodata (m : Meta) (v : fval) : bool :=
  match nodata m with
  | Some s => (isnan s && isnan v) || feqb v s
  | None => false
  end.

Definition count_true (l : list bool) : nat := List.length (filter id l).

(** Number of no-data pixels of a raster. *)
Definition count_nodata (r : Raster) : nat :=
  list_sum (map (fun row => count_true (map (is_nodata (meta r)) row)) (band r)).

(** Number of NaN pixels of an array. *)
Definition count_nan (a : array2) : nat :=
  list_sum (map (fun row => List.length (filter isnan row)) a).

(** The values of a list that are not NaN, in order. *)
Definition valid_values (a : list fval) : list fval :=
  filter (fun v => negb (isnan v)) a.


End Vocabulary.
Export Vocabulary.

(* ================================================================== *)
(** ** Vocabulary of the further properties *)
(* ================================================================== *)

Module FurtherVocabulary.

Fixpoint all_digits (s : string) : bool :=
  match s with
  | EmptyString => true
  | String c s' => is_digit c && all_digits s'
  end.

(** A name made of ASCII characters.  Strings are strings of bytes here,
    the UTF-8 form of the Python strings.  On an ASCII name a byte is a
    character: [\d] matches the ten characters [0-9] and nothing else, and
    [len] is the number of bytes.  The statements that depend on either
    are made for ASCII names. *)
Definition is_ascii (s : string) : bool :=
  forallb (fun c => (nat_of_ascii c <? 128)%nat) (list_ascii_of_string s).

(** A match of [\d{8}]: the name reads [pre ++ d ++ post] with [d] made of
    eight digits. *)
Definition date_match (name pre d : string) : Prop :=
  String.length d = 8%nat /\ all_digits d = true /\
  exists post, name = (pre ++ d ++ post)%string.

(** [grouped[key]], the empty list standing for a missing key. *)
Fixpoint group_of {A} (key : string) (grouped : list (string * list A)) : list A :=
  match grouped with
  | [] => []
  | (k, l) :: rest => if String.eqb k key then l else group_of key rest
  end.

Definition has_date_key (key name : string) : bool :=
  match search_date name with
  | Some d => String.eqb d key
  | None => false
  end.

Definition daily_name (key : string) : string :=
  ("TSM_daily_" ++ key ++ ".tif")%string.

Definition write_composite (g : string * list Raster) : M unit :=
  match merge_and_average (snd g) with
  | Ok (arr, shape, trans, m) =>
      write_raster composite_dir ("TSM_daily_" ++ fst g ++ ".tif")
        (composite_raster arr shape trans m)
  | Raise e => raise e
  end.

(** ["_".join(parts)] *)
Fixpoint join_underscore (parts : list string) : string :=
  match parts with
  | [] => EmptyString
  | [p] => p
  | p :: rest => (p ++ "_" ++ join_underscore rest)%string
  end.

Fixpoint has_char (c : ascii) (s : string) : bool :=
  match s with
  | EmptyString => false
  | String c' s' => Ascii.eqb c' c || has_char c s'
  end.

(** A part that reads like a time stamp to the scan: fifteen characters,
    the first two being ["20"]. *)
Definition stamp_like (part : string) : bool :=
  (String.length part =? 15)%nat && starts_with "20" part.

Definition could_not_extract (name : string) (w : world) : world :=
  {| stdout := stdout w ++ [("Could not extract timestamp from " ++ name)%string];
     files := files w |}.

(** What step 4D keeps of a file, and what it prints for it. *)
Definition stacked (datetime : Type) (strptime : string -> option datetime)
  (f : string * opened) : list (datetime * array2) :=
  match scan_parts strptime (split_underscore (stem (fst f))), snd f with
  | Some t, Loaded da => [(t, da)]
  | _, _ => []
  end.

Definition lines_for (datetime : Type) (strptime : string -> option datetime)
  (f : string * opened) : list string :=
  ("Processing: " ++ fst f)%string ::
  match scan_parts strptime (split_underscore (stem (fst f))), snd f with
  | None, _ => [("Could not extract timestamp from " ++ fst f)%string]
  | Some _, Failed message =>
      [("Skipping " ++ fst f ++ " due to error: " ++ message)%string]
  | Some _, Loaded _ => []
  end.

(** The raster [create_geotiff_from_swath] writes for a lattice. *)
Definition gridded_raster (dist : Qc * Qc -> Qc * Qc -> Qc)
  (sw : Swath) (ad : AreaDefinition) : Raster :=
  {| meta :=
       {| driver := "GTiff"; dtype := "float32"; nodata := Some NaN;
          width := area_width ad; height := area_height ad; count := 1;
          crs := "EPSG:4326";
          transform :=
            {| origin_x := lon_min ad;
               origin_y := lat_max ad;
               res_x := (lon_max ad - lon_min ad) / of_nat (area_width ad);
               res_y := (lat_max ad - lat_min ad) / of_nat (area_height ad) |} |};
     band := resample dist sw ad |}.

Definition stored_well_formed (w : world) : Prop :=
  Forall (fun f => well_formed (snd f)) (files w).

(** A path names one raster. *)
Definition unique_paths (w : world) : Prop := NoDup (map fst (files w)).

(** The common shape of the loops of steps 4 and 5: a raster of a listing
    goes through [F] and the result is written under the same name in the
    folder [D]; a failure of [F] is raised. *)
Definition through (D : dir) (F : Raster -> result Raster)
  (t : string * Raster) : M unit :=
  match F (snd t) with
  | Ok c => write_raster D (fst t) c
  | Raise e => raise e
  end.

(** The window of a successful clip, read off the raster it returns. *)
Definition window_of (r c : Raster) (i0 j0 : nat) : Prop :=
  (i0 + height (meta c) <= height (meta r))%nat /\
  (j0 + width (meta c) <= width (meta r))%nat /\
  origin_x (transform (meta c))
  = (origin_x (transform (meta r)) + of_nat j0 * res_x (transform (meta r)))%Qc /\
  origin_y (transform (meta c))
  = (origin_y (transform (meta r)) - of_nat i0 * res_y (transform (meta r)))%Qc /\
  res_x (transform (meta c)) = res_x (transform (meta r)) /\
  res_y (transform (meta c)) = res_y (transform (meta r)).

(** An entry of a product folder that the cleaning removes. *)
Definition unwanted (e : string * kind) : bool :=
  isfile (snd e) && negb (to_keep (fst e)).

Definition count_if {A} (f : A -> bool) (l : list A) : nat :=
  List.length (filter f l).

(** The product folders of a base directory: the directories named
    [*.SEN3]. *)
Definition is_product (e : string * entry) : bool :=
  match snd e with
  | Folder _ => ends_with ".SEN3" (fst e)
  | _ => false
  end.

Definition content_of (e : string * entry) : list (string * kind) :=
  match snd e with Folder content => content | _ => [] end.

Definition cleaned (e : string * entry) : string * entry :=
  if is_product e
  then (fst e, Folder (filter (fun x => negb (unwanted x)) (content_of e)))
  else e.

Definition regular_files (base : list (string * entry))
  (p : string * kind -> bool) : nat :=
  list_sum (map (fun e => if is_product e then count_if p (content_of e) else 0%nat)
              base).

End FurtherVocabulary.
Export FurtherVocabulary.

(* ================================================================== *)
(** ** Concrete inputs of the examples *)
(* ================================================================== *)

(** Nothing printed yet, no raster on disk. *)
Definition empty_world : world := {| stdout := []; files := [] |}.

(** One row of three pixels: a positive value, a negative one, a NaN. *)
Definition sample_raster : Raster :=
  {| meta := {| driver := "GTiff"; dtype := "float32";
                nodata := Some NaN; width := 3; height := 1;
                count := 1; crs := "EPSG:4326";
                transform := {| origin_x := Q2Qc 0; origin_y := Q2Qc 1;
                                res_x := Q2Qc 1; res_y := Q2Qc 1 |} |};
     band := [[Fin (Q2Qc 5); Fin (Q2Qc (-2)); NaN]] |}.

(** A raster whose no-data value is the sentinel [-9999]: one no-data
    pixel and one measurement. *)
Definition sentinel_raster : Raster :=
  {| meta := {| driver := "GTiff"; dtype := "float32";
                nodata := Some (Fin (Q2Qc (-9999))); width := 2; height := 1;
                count := 1; crs := "EPSG:4326";
                transform := {| origin_x := Q2Qc 0; origin_y := Q2Qc 1;
                                res_x := Q2Qc 1; res_y := Q2Qc 1 |} |};
     band := [[Fin (Q2Qc (-9999)); Fin (Q2Qc 5)]] |}.

(** Two passes of one day over the same two cells. *)
Definition pass_a : Raster :=
  {| meta := {| driver := "GTiff"; dtype := "float32";
                nodata := Some NaN; width := 2; height := 1;
                count := 1; crs := "EPSG:4326";
                transform := {| origin_x := Q2Qc 0; origin_y := Q2Qc 1;
                                res_x := Q2Qc 1; res_y := Q2Qc 1 |} |};
     band := [[Fin (Q2Qc 10); NaN]] |}.

Definition pass_b : Raster :=
  {| meta := meta pass_a; band := [[NaN; Fin (Q2Qc 20)]] |}.

(** Two measured pixels, the first at the centre of [unit_area]. *)
Definition swath1 : Swath :=
  [ {| tsm := Fin (Q2Qc 7); lat := Fin (Q2Qc (1 # 2)); lon := Fin (Q2Qc (1 # 2)) |};
    {| tsm := Fin (Q2Qc 9); lat := Fin (Q2Qc 1); lon := Fin (Q2Qc 1) |} ].


Definition res3 : Qc := Q2Qc (2 # 5).

(** A swath with positions and no measurement. *)
Definition cloudy_swath : Swath :=
  [ {| tsm := NaN; lat := Fin (Q2Qc 34); lon := Fin (Q2Qc (-119)) |};
    {| tsm := NaN; lat := Fin (Q2Qc 35); lon := Fin (Q2Qc (-118)) |} ].

(** Two small products, one near the origin and one near (10, 10). *)
Definition swath_A : Swath :=
  [ {| tsm := Fin (Q2Qc 3); lat := Fin (Q2Qc 0); lon := Fin (Q2Qc 0) |};
    {| tsm := Fin (Q2Qc 4); lat := Fin (Q2Qc (5 # 1000));
       lon := Fin (Q2Qc (5 # 1000)) |} ].

Definition swath_B : Swath :=
  [ {| tsm := Fin (Q2Qc 6); lat := Fin (Q2Qc 10); lon := Fin (Q2Qc 10) |};
    {| tsm := Fin (Q2Qc 8); lat := Fin (Q2Qc (10005 # 1000));
       lon := Fin (Q2Qc (10005 # 1000)) |} ].

Definition two_products : list Product :=
  [ {| sen3_name := "A.SEN3"; netcdf := Some swath_A |};
    {| sen3_name := "B.SEN3"; netcdf := Some swath_B |} ].

Definition unit_area : AreaDefinition :=
  {| area_width := 1; area_height := 1;
     lon_min := Q2Qc 0; lat_min := Q2Qc 0;
     lon_max := Q2Qc 1; lat_max := Q2Qc 1 |}.

(** A stand-in metric for the examples: 111 km per degree, summed over the
    two axes. *)
Definition Qcabs (q : Qc) : Qc := if Qcle_bool (Q2Qc 0) q then q else (- q)%Qc.

Definition flat_dist (a b : Qc * Qc) : Qc :=
  (Q2Qc 111000 * (Qcabs (fst a - fst b) + Qcabs (snd a - snd b)))%Qc.

(** Rectangles as a stand-in for the polygons of the examples. *)
Definition Box : Type := (Qc * Qc * Qc * Qc)%type.

Definition box_covers (g : Box) (x y : Qc) : bool :=
  let '(minx, miny, maxx, maxy) := g in
  Qcle_bool minx x && Qcle_bool x maxx && Qcle_bool miny y && Qcle_bool y maxy.

Definition box_to_crs (src dst : string) (g : Box) : Box := g.

Definition box_bounds (g : Box) : Qc * Qc * Qc * Qc := g.

(** A region around (10, 10): product B is inside, product A is not. *)
Definition far_roi : ROI Box :=
  {| roi_crs := "EPSG:4326";
     roi_geometry := (Q2Qc 10, Q2Qc 10, Q2Qc 11, Q2Qc 11) |}.

(** Two reclassified rasters, both away from [far_roi]. *)
Definition recl_world : world :=
  {| stdout := [];
     files := [ (recl_dir, "TSM_A.SEN3.tif"%string, sample_raster);
                (recl_dir, "TSM_B.SEN3.tif"%string, pass_a) ] |}.

(** Two clipped rasters, the first with no date in its name. *)
Definition clipped_world : world :=
  {| stdout := [];
     files :=
       [ (clip_dir, "TSM_mosaic.SEN3.tif"%string, pass_a);
         (clip_dir,
          "TSM_S3A_OL_2_WFR____20180105T093000.SEN3.tif"%string, pass_b) ] |}.

(** A clipped folder that holds a raster whose name starts with a dot. *)
Definition hidden_world : world :=
  {| stdout := [];
     files :=
       [ (clip_dir, ".hidden_20180107T000000.tif"%string, pass_a);
         (clip_dir, "TSM_A_20180105T093000.tif"%string, pass_b) ] |}.

(** The run of [main] on the two products with the region [far_roi]. *)
Definition run_two : result unit * world :=
  main flat_dist box_to_crs box_covers two_products far_roi empty_world.

(** A stand-in for [datetime.strptime(part, "%Y%m%dT%H%M%S")]: eight
    digits, a [T], six digits; the time is kept as its text. *)
Definition stamp_text (part : string) : option string :=
  if (String.length part =? 15)%nat
     && all_digits (substring 0 8 part)
     && String.eqb (substring 8 1 part) "T"
     && all_digits (substring 9 6 part)
  then Some part else None.

(** The files of a stacking run: a raster, a file without time stamp in
    its name, and a file that [open_rasterio] rejects. *)
Definition three_files : list (string * opened) :=
  [ ("TSM_A_20180105T093000.tif"%string, Loaded (band pass_a));
    ("TSM_mosaic.tif"%string, Loaded (band pass_b));
    ("TSM_B_20180106T101500.tif"%string, Failed "not a raster") ].

(** A swath with one measured pixel and one position at infinity. *)
Definition swath_inf : Swath :=
  [ {| tsm := Fin (Q2Qc 3); lat := Fin (Q2Qc 0); lon := Fin (Q2Qc 0) |};
    {| tsm := NaN; lat := PInf; lon := Fin (Q2Qc 1) |} ].


(** Two gridded rasters. *)
Definition gridded_world : world :=
  {| stdout := [];
     files := [ (geotiff_dir, "TSM_A.SEN3.tif"%string, sample_raster);
                (geotiff_dir, "TSM_B.SEN3.tif"%string, pass_a) ] |}.

(** A region that covers the rasters of [recl_world]. *)
Definition near_roi : ROI Box :=
  {| roi_crs := "EPSG:4326";
     roi_geometry := (Q2Qc 0, Q2Qc 0, Q2Qc 3, Q2Qc 1) |}.

(** A rectangle over the second and third pixel of [sample_raster], and the
    clip of that raster to it. *)
Definition east_box : Box := (Q2Qc 1, Q2Qc 0, Q2Qc 3, Q2Qc 1).

Definition sample_clipped : Raster :=
  {| meta := {| driver := "GTiff"; dtype := "float32";
                nodata := Some NaN; width := 2; height := 1;
                count := 1; crs := "EPSG:4326";
                transform := {| origin_x := Q2Qc 1; origin_y := Q2Qc 1;
                                res_x := Q2Qc 1; res_y := Q2Qc 1 |} |};
     band := [[Fin (Q2Qc (-2)); NaN]] |}.

(** Times as a year and a month, for the seasonal example: two winter
    arrays of different years. *)
Definition year_month : Type := (nat * nat)%type.

Definition year_month_eqb (a b : year_month) : bool :=
  (fst a =? fst b)%nat && (snd a =? snd b)%nat.

Definition two_winters : list (year_month * array2) :=
  [ ((2018%nat, 1%nat), band pass_a); ((2019%nat, 2%nat), band pass_b) ].

(* ================================================================== *)
(** * Properties *)
(* ================================================================== *)

(** ** Facts about the float operations *)

Lemma Qclt_bool_iff (a b : Qc) : Qclt_bool a b = true <-> (a < b)%Qc.
Proof.
  unfold Qclt_bool, Qclt, Qlt, Qccompare, Qcompare.
  destruct (Qnum a * QDen b ?= Qnum b * QDen a)%Z eqn:E; split;
    intro H; try discriminate; try reflexivity.
  - rewrite Z.compare_eq_iff in E. lia.
  - rewrite Z.compare_lt_iff in E. exact E.
  - rewrite Z.compare_gt_iff in E. lia.
Qed.

Lemma Qcle_bool_iff (a b : Qc) : Qcle_bool a b = true <-> (a <= b)%Qc.
Proof.
  unfold Qcle_bool, Qcle, Qle, Qccompare, Qcompare.
  destruct (Qnum a * QDen b ?= Qnum b * QDen a)%Z eqn:E; split;
    intro H; try discriminate; try reflexivity.
  - rewrite Z.compare_eq_iff in E. lia.
  - rewrite Z.compare_lt_iff in E. lia.
  - rewrite Z.compare_gt_iff in E. lia.
Qed.

Lemma flt_fle_false (v : fval) : fle zero v = true -> flt v zero = false.
Proof.
  destruct v as [ | | | q]; simpl; try reflexivity; try discriminate.
  intro H. apply Qcle_bool_iff in H.
  destruct (Qclt_bool q (Q2Qc 0)) eqn:E; [ | reflexivity].
  apply Qclt_bool_iff in E. exfalso. exact (Qcle_not_lt _ _ H E).
Qed.

Lemma flt_not_nan (v w : fval) : flt v w = true -> isnan v = false.
Proof. destruct v, w; simpl; congruence. Qed.

Lemma fadd_zero_r (v : fval) : fadd v zero = v.
Proof.
  destruct v as [ | | | q]; simpl; try reflexivity.
  f_equal. ring.
Qed.



(** ** Arrays *)

Lemma get2_map (f : fval -> fval) (a : array2) (i j : nat) :
  f NaN = NaN -> get2 (map (map f) a) i j = f (get2 a i j).
Proof.
  intro Hf. unfold get2.
  change (@nil fval) with (map f []) at 1.
  rewrite map_nth. rewrite <- Hf at 1. apply map_nth.
Qed.

Lemma has_shape_map (f : fval -> fval) (a : array2) (h w : nat) :
  has_shape a h w -> has_shape (map (map f) a) h w.
Proof.
  intros [Hh Hw]. split.
  - now rewrite length_map.
  - rewrite Forall_forall in *. intros row Hin.
    apply in_map_iff in Hin. destruct Hin as [row0 [<- Hin0]].
    rewrite length_map. now apply Hw.
Qed.

Lemma get2_tabulate (h w : nat) (f : nat -> nat -> fval) (i j : nat) :
  (i < h)%nat -> (j < w)%nat -> get2 (tabulate h w f) i j = f i j.
Proof.
  intros Hi Hj. unfold get2, tabulate.
  rewrite (nth_indep _ [] (map (f 0%nat) (seq 0 w)))
    by (now rewrite length_map, length_seq).
  rewrite (map_nth (fun i => map (f i) (seq 0 w)) (seq 0 h) 0%nat i).
  rewrite seq_nth by assumption. simpl.
  rewrite (nth_indep _ NaN (f i 0%nat))
    by (now rewrite length_map, length_seq).
  rewrite (map_nth (f i) (seq 0 w) 0%nat j).
  now rewrite seq_nth.
Qed.

Lemma has_shape_tabulate (h w : nat) (f : nat -> nat -> fval) :
  has_shape (tabulate h w f) h w.
Proof.
  unfold tabulate. split.
  - now rewrite length_map, length_seq.
  - rewrite Forall_forall. intros row Hin.
    apply in_map_iff in Hin. destruct Hin as [i [<- _]].
    now rewrite length_map, length_seq.
Qed.


(** ** The reclassifier *)

Lemma reclass_value_nan : reclass_value NaN = NaN.
Proof. reflexivity. Qed.

Lemma reclass_value_idem (v : fval) :
  reclass_value (reclass_value v) = reclass_value v.
Proof.
  unfold reclass_value.
  destruct (flt v zero && negb (isnan v)) eqn:E; [reflexivity | ].
  now rewrite E.
Qed.

Lemma reclass_value_isnan (v : fval) : isnan (reclass_value v) = isnan v.
Proof.
  unfold reclass_value.
  destruct (flt v zero && negb (isnan v)) eqn:E; [ | reflexivity].
  apply andb_true_iff in E. destruct E as [_ E].
  apply negb_true_iff in E. now rewrite E.
Qed.

Lemma reclassify_get2 (r : Raster) (i j : nat) :
  get2 (band (reclassify_negative_to_zero r)) i j
  = reclass_value (get2 (band r) i j).
Proof. apply get2_map, reclass_value_nan. Qed.

(** C2, as the code has it: at every position of every raster, a value
    below zero (minus infinity included) becomes [0], a NaN stays, and a
    value that is at least zero (plus infinity included) stays.  The function
    is total: it is a Rocq function on all rasters. *)
Theorem reclassify_contract (r : Raster) (i j : nat) :
  let v := get2 (band r) i j in
  let v' := get2 (band (reclassify_negative_to_zero r)) i j in
  (flt v zero = true -> v' = zero) /\
  (isnan v = true -> v' = v) /\
  (fle zero v = true -> v' = v).
Proof.
  cbv zeta. rewrite reclassify_get2. unfold reclass_value.
  repeat split; intro H.
  - rewrite H, (flt_not_nan _ _ H). reflexivity.
  - rewrite H, andb_false_r. reflexivity.
  - rewrite (flt_fle_false _ H). reflexivity.
Qed.

Lemma reclassify_contract_witness :
  get2 (band (reclassify_negative_to_zero sample_raster)) 0 1 = zero /\
  get2 (band (reclassify_negative_to_zero sample_raster)) 0 2
  = get2 (band sample_raster) 0 2 /\
  get2 (band (reclassify_negative_to_zero sample_raster)) 0 0
  = get2 (band sample_raster) 0 0.
Proof.
  split; [ | split].
  - apply (proj1 (reclassify_contract sample_raster 0 1)). reflexivity.
  - apply (proj1 (proj2 (reclassify_contract sample_raster 0 2))). reflexivity.
  - apply (proj2 (proj2 (reclassify_contract sample_raster 0 0))). reflexivity.
Defined.

(** C2 as the specification words it fails on a non-finite value: a pixel
    holding minus infinity is not finite, and it is rewritten to [0]. *)
Lemma reclassify_changes_neg_infinity :
  exists r : Raster,
    isfinite (get2 (band r) 0 0) = false /\
    get2 (band (reclassify_negative_to_zero r)) 0 0 = zero /\
    get2 (band (reclassify_negative_to_zero r)) 0 0 <> get2 (band r) 0 0.
Proof.
  exists {| meta := {| driver := "GTiff"; dtype := "float32";
                       nodata := Some NaN; width := 1; height := 1;
                       count := 1; crs := "EPSG:4326";
                       transform := {| origin_x := Q2Qc 0; origin_y := Q2Qc 0;
                                       res_x := Q2Qc 1; res_y := Q2Qc 1 |} |};
            band := [[NInf]] |}.
  repeat split. discriminate.
Qed.

Lemma is_nodata_nan_sentinel (m : Meta) (v : fval) :
  nodata m = Some NaN -> is_nodata m v = isnan v.
Proof.
  intro H. unfold is_nodata. rewrite H. simpl.
  destruct v; reflexivity.
Qed.

Lemma filter_isnan_reclass (row : list fval) :
  List.length (filter isnan (map reclass_value row))
  = List.length (filter isnan row).
Proof.
  induction row as [ | v row IH]; [reflexivity | ]. simpl.
  rewrite reclass_value_isnan. destruct (isnan v); simpl; now rewrite IH.
Qed.

(** C8, as the code has it: reclassifying twice is reclassifying once; the
    NaN pixels are the same before and after, position by position, hence
    in number; and on a raster whose no-data value is NaN (the one step 3
    writes) these are its no-data pixels, so that their number and their
    places are kept.  The guard of the reclassifier exempts NaN only: a
    no-data value that is a negative number is not protected. *)
Theorem reclassify_idempotent_nodata_stable (r : Raster) :
  reclassify_negative_to_zero (reclassify_negative_to_zero r)
  = reclassify_negative_to_zero r /\
  (forall i j,
     isnan (get2 (band (reclassify_negative_to_zero r)) i j)
     = isnan (get2 (band r) i j)) /\
  count_nan (band (reclassify_negative_to_zero r)) = count_nan (band r) /\
  (nodata (meta r) = Some NaN ->
   (forall i j,
      is_nodata (meta (reclassify_negative_to_zero r))
        (get2 (band (reclassify_negative_to_zero r)) i j)
      = is_nodata (meta r) (get2 (band r) i j)) /\
   count_nodata (reclassify_negative_to_zero r) = count_nodata r).
Proof.
  split; [ | split; [ | split]].
  - unfold reclassify_negative_to_zero. simpl. f_equal.
    rewrite map_map. apply map_ext. intro row.
    rewrite map_map. apply map_ext. apply reclass_value_idem.
  - intros i j. rewrite reclassify_get2. apply reclass_value_isnan.
  - unfold count_nan. simpl. rewrite map_map. f_equal.
    apply map_ext. apply filter_isnan_reclass.
  - intro Hnd. split.
    + intros i j. rewrite reclassify_get2. simpl.
      rewrite !(is_nodata_nan_sentinel _ _ Hnd). apply reclass_value_isnan.
    + unfold count_nodata. simpl. rewrite map_map. f_equal.
      apply map_ext. intro row. rewrite map_map. f_equal.
      apply map_ext. intro v.
      rewrite !(is_nodata_nan_sentinel _ _ Hnd). apply reclass_value_isnan.
Qed.

Lemma reclassify_idempotent_nodata_stable_witness :
  reclassify_negative_to_zero (reclassify_negative_to_zero sample_raster)
  = reclassify_negative_to_zero sample_raster /\
  count_nan (band (reclassify_negative_to_zero sample_raster)) = 1%nat /\
  (forall i j,
     is_nodata (meta (reclassify_negative_to_zero sample_raster))
       (get2 (band (reclassify_negative_to_zero sample_raster)) i j)
     = is_nodata (meta sample_raster) (get2 (band sample_raster) i j)) /\
  count_nodata (reclassify_negative_to_zero sample_raster)
  = count_nodata sample_raster.
Proof.
  destruct (reclassify_idempotent_nodata_stable sample_raster)
    as [Hidem [_ [Hcount Hnd]]].
  split; [exact Hidem | ]. split; [exact Hcount | ].
  apply Hnd. reflexivity.
Defined.

(** C8 as the specification words it fails on a raster whose no-data value
    is [-9999]: the no-data pixel is below zero, the reclassifier writes [0]
    there, and the raster that had one no-data pixel has none. *)
Lemma reclassify_rewrites_a_negative_sentinel :
  count_nodata sentinel_raster = 1%nat /\
  count_nodata (reclassify_negative_to_zero sentinel_raster) = 0%nat /\
  is_nodata (meta sentinel_raster) (get2 (band sentinel_raster) 0 0) = true /\
  get2 (band (reclassify_negative_to_zero sentinel_raster)) 0 0 = zero /\
  is_nodata (meta (reclassify_negative_to_zero sentinel_raster))
    (get2 (band (reclassify_negative_to_zero sentinel_raster)) 0 0) = false.
Proof. repeat split. Qed.

(** The scenario of the specification: [[5, -2, NaN]] becomes [[5, 0, NaN]]. *)
Example reclassify_scenario :
  band (reclassify_negative_to_zero sample_raster)
  = [[Fin (Q2Qc 5); zero; NaN]].
Proof. reflexivity. Qed.

(** C10: reclassification copies the profile: width, height, data type, CRS,
    geotransform and no-data value of the output are those of the input,
    and the band keeps its shape. *)
Theorem reclassify_keeps_profile (r : Raster) :
  meta (reclassify_negative_to_zero r) = meta r /\
  width (meta (reclassify_negative_to_zero r)) = width (meta r) /\
  height (meta (reclassify_negative_to_zero r)) = height (meta r) /\
  dtype (meta (reclassify_negative_to_zero r)) = dtype (meta r) /\
  crs (meta (reclassify_negative_to_zero r)) = crs (meta r) /\
  transform (meta (reclassify_negative_to_zero r)) = transform (meta r) /\
  nodata (meta (reclassify_negative_to_zero r)) = nodata (meta r) /\
  List.length (band (reclassify_negative_to_zero r)) = List.length (band r) /\
  (forall i, List.length (nth i (band (reclassify_negative_to_zero r)) [])
             = List.length (nth i (band r) [])).
Proof.
  repeat split.
  - simpl. apply length_map.
  - intro i. simpl.
    change (@nil fval) with (map reclass_value []) at 1.
    rewrite map_nth. apply length_map.
Qed.

(** ** Rational arithmetic behind the lattices *)

Lemma this_Q2Qc (q : Q) : (this (Q2Qc q) == q)%Q.
Proof. simpl. apply Qred_correct. Qed.

Lemma this_plus (a b : Qc) : (this (a + b)%Qc == this a + this b)%Q.
Proof. unfold Qcplus. apply this_Q2Qc. Qed.




Lemma Qclt_neq (a : Qc) : (Q2Qc 0 < a)%Qc -> a <> Q2Qc 0.
Proof. intros H E. rewrite E in H. exact (Qclt_not_eq _ _ H eq_refl). Qed.



(** ** The reduction at one pixel *)

Lemma fold_fadd_replace_nan (a : list fval) (acc : fval) :
  fold_left fadd (map replace_nan a) acc = fold_left fadd (valid_values a) acc.
Proof.
  revert acc. induction a as [ | v a IH]; intro acc; simpl; [reflexivity | ].
  destruct v; simpl; rewrite ?fadd_zero_r; apply IH.
Qed.

(** [np.nanmean] is the mean of the values that are not NaN. *)
Lemma nanmean_mean_valid (a : list fval) : nanmean a = mean (valid_values a).
Proof.
  unfold nanmean, mean, fsum, count_valid.
  now rewrite fold_fadd_replace_nan.
Qed.


Lemma nanmean_axis0_get2 (h w : nat) (stack : list array2) (i j : nat) :
  (i < h)%nat -> (j < w)%nat ->
  get2 (nanmean_axis0 h w stack) i j
  = mean (valid_values (map (fun a => get2 a i j) stack)).
Proof.
  intros Hi Hj. unfold nanmean_axis0.
  rewrite get2_tabulate by assumption. apply nanmean_mean_valid.
Qed.

(** ** Merging rasters that share a lattice *)





Lemma well_formed_pass_a : well_formed pass_a.
Proof. repeat split; repeat constructor. Qed.


(** The scenario of the specification: [[10, NaN]] and [[NaN, 20]] give the
    composite [[10, 20]]. *)
Example composite_scenario :
  exists arr shape t m,
    merge_and_average [pass_a; pass_b] = Ok (arr, shape, t, m) /\
    arr = [[Fin (Q2Qc 10); Fin (Q2Qc 20)]].
Proof.
  do 4 eexists. split; [reflexivity | ].
  vm_compute. repeat f_equal; apply Qc_is_canon; reflexivity.
Qed.

(** The same reduction in [aggregate_stack]: for each of the five
    intervals, the slice of a period that has members is, pixel by pixel, the
    mean of the member values that are not NaN. *)
Lemma aggregate_stack_is_mean_of_valid
  (datetime : Type)
  (floor_day week_start month_start year_start : datetime -> datetime)
  (month_of : datetime -> nat) (datetime_eqb : datetime -> datetime -> bool)
  (h w : nat) (ds : list (datetime * array2)) (interval : string)
  (p : period datetime) :
  In interval ["daily"; "weekly"; "monthly"; "annual"; "seasonal"]%string ->
  let group := members floor_day week_start month_start year_start month_of
                 datetime_eqb interval ds p in
  group <> [] ->
  exists agg arr,
    aggregate_stack floor_day week_start month_start year_start month_of
      datetime_eqb h w ds interval = Ok agg /\
    agg p = Some arr /\
    forall i j, (i < h)%nat -> (j < w)%nat ->
      get2 arr i j = mean (valid_values (map (fun a => get2 a i j) group)).
Proof.
  intros Hint group Hne. unfold aggregate_stack.
  assert (E : (String.eqb interval "daily" || String.eqb interval "weekly"
               || String.eqb interval "monthly" || String.eqb interval "annual"
               || String.eqb interval "seasonal") = true).
  { simpl in Hint.
    destruct Hint as [<- | [<- | [<- | [<- | [<- | []]]]]]; reflexivity. }
  rewrite E. eexists. exists (nanmean_axis0 h w group).
  split; [reflexivity | ]. split.
  - cbv beta. fold group. destruct group; [contradiction | reflexivity].
  - intros i j Hi Hj. now apply nanmean_axis0_get2.
Qed.




(** ** Extent and counts of the lattice *)





Lemma Qcle_bool_false (a b : Qc) : Qcle_bool a b = false -> (b <= a)%Qc.
Proof.
  intro H. destruct (Qclt_le_dec a b) as [L | L]; [ | exact L].
  apply Qclt_le_weak, Qcle_bool_iff in L. congruence.
Qed.












Lemma ceiling_count_pos (x : Qc) :
  (1 <= Z.to_nat (Qceiling x))%nat <-> (Q2Qc 0 < x)%Qc.
Proof.
  pose proof (Qle_ceiling x) as Hup. pose proof (Qceiling_lt x) as Hlow.
  unfold Qclt. change (this (Q2Qc 0)) with 0%Q.
  split; intro H.
  - assert (Hz : (1 <= Qceiling x)%Z) by lia.
    apply Qle_lt_trans with (inject_Z (Qceiling x - 1)); [ | exact Hlow].
    change 0%Q with (inject_Z 0). rewrite <- Zle_Qle. lia.
  - assert (Hz : (0 < Qceiling x)%Z).
    { rewrite Zlt_Qlt. eapply Qlt_le_trans; eauto. }
    lia.
Qed.





(** A swath whose valid pixels share one longitude gets a lattice without
    columns: no count of at least 1 is guaranteed. *)
Example grid_with_no_column :
  exists ad : AreaDefinition,
    grid_definition
      [ {| tsm := Fin (Q2Qc 1); lat := Fin (Q2Qc 0); lon := Fin (Q2Qc 2) |};
        {| tsm := Fin (Q2Qc 1); lat := Fin (Q2Qc 1); lon := Fin (Q2Qc 2) |} ]
      res3 = Some ad /\
    area_width ad = 0%nat /\ area_height ad = 3%nat.
Proof. eexists. split; [reflexivity | ]. split; reflexivity. Qed.

(** ** The resampler *)

Lemma get2_tabulate_outside (h w : nat) (f : nat -> nat -> fval) (i j : nat) :
  (h <= i)%nat \/ (w <= j)%nat -> get2 (tabulate h w f) i j = NaN.
Proof.
  intro H. unfold get2, tabulate.
  destruct (Nat.lt_ge_cases i h) as [Hi | Hi].
  - destruct H as [H | H]; [lia | ].
    rewrite (nth_indep _ [] (map (f 0%nat) (seq 0 w)))
      by (now rewrite length_map, length_seq).
    rewrite (map_nth (fun i => map (f i) (seq 0 w)) (seq 0 h) 0%nat i).
    apply nth_overflow. now rewrite length_map, length_seq.
  - rewrite (nth_overflow _ [])
      by (now rewrite length_map, length_seq).
    now destruct j.
Qed.

Section ResampleFacts.

Variable dist : Qc * Qc -> Qc * Qc -> Qc.

Lemma candidate_inv (c : Qc * Qc) (p : pixel) (d : Qc) (v : fval) :
  candidate dist c p = Some (d, v) ->
  exists x y, lon p = Fin x /\ lat p = Fin y /\ v = tsm p /\
              d = dist c (x, y) /\ (d < radius_of_influence)%Qc.
Proof.
  unfold candidate.
  destruct (lon p) as [ | | | x]; try discriminate.
  destruct (lat p) as [ | | | y]; try discriminate.
  destruct (_ && _) eqn:E; [ | discriminate].
  intro H. injection H as <- <-.
  apply andb_true_iff in E. destruct E as [_ E].
  apply Qclt_bool_iff in E.
  exists x, y. repeat split. exact E.
Qed.

(** What the search returns is the running best or a candidate of the
    swath. *)
Lemma nearest_origin (c : Qc * Qc) (sw : Swath) (best : option (Qc * fval))
  (d : Qc) (v : fval) :
  nearest dist c sw best = Some (d, v) ->
  best = Some (d, v) \/ exists p, In p sw /\ candidate dist c p = Some (d, v).
Proof.
  revert best. induction sw as [ | p rest IH]; intros best H; simpl in H.
  - now left.
  - destruct (candidate dist c p) as [[d1 v1] | ] eqn:Ec.
    + destruct best as [[d0 v0] | ].
      * apply IH in H. destruct H as [H | [q [Hq Hc]]].
        -- destruct (Qclt_bool d1 d0).
           ++ right. exists p. split; [now left | congruence].
           ++ now left.
        -- right. exists q. split; [now right | exact Hc].
      * apply IH in H. destruct H as [H | [q [Hq Hc]]].
        -- right. exists p. split; [now left | congruence].
        -- right. exists q. split; [now right | exact Hc].
    + apply IH in H. destruct H as [H | [q [Hq Hc]]].
      * now left.
      * right. exists q. split; [now right | exact Hc].
Qed.

(** No candidate of the swath is closer than the one returned. *)
Lemma nearest_closest (c : Qc * Qc) (sw : Swath) (best : option (Qc * fval))
  (d : Qc) (v : fval) :
  nearest dist c sw best = Some (d, v) ->
  (forall d0 v0, best = Some (d0, v0) -> (d <= d0)%Qc) /\
  (forall p d1 v1, In p sw -> candidate dist c p = Some (d1, v1) -> (d <= d1)%Qc).
Proof.
  revert best. induction sw as [ | p rest IH]; intros best H; simpl in H.
  - subst best. split.
    + intros d0 v0 E. injection E as <- <-. apply Qcle_refl.
    + intros p d1 v1 [].
  - destruct (candidate dist c p) as [[d1 v1] | ] eqn:Ec.
    + destruct best as [[d0 v0] | ].
      * destruct (IH _ H) as [Hb Hr]. destruct (Qclt_bool d1 d0) eqn:El.
        -- apply Qclt_bool_iff in El.
           assert (Hd : (d <= d1)%Qc) by (eapply Hb; reflexivity).
           split.
           ++ intros d2 v2 E. injection E as <- <-.
              apply Qcle_trans with d1; [exact Hd | now apply Qclt_le_weak].
           ++ intros q d2 v2 [<- | Hq] Hc; [ | eauto].
              rewrite Ec in Hc. now injection Hc as <- <-.
        -- assert (Hd : (d <= d0)%Qc) by (eapply Hb; reflexivity).
           assert (Hge : (d0 <= d1)%Qc).
           { apply Qcnot_lt_le. intro L. apply Qclt_bool_iff in L. congruence. }
           split.
           ++ intros d2 v2 E. now injection E as <- <-.
           ++ intros q d2 v2 [<- | Hq] Hc; [ | eauto].
              rewrite Ec in Hc. injection Hc as <- <-.
              now apply Qcle_trans with d0.
      * destruct (IH _ H) as [Hb Hr]. split; [discriminate | ].
        intros q d2 v2 [<- | Hq] Hc; [ | eauto].
        rewrite Ec in Hc. injection Hc as <- <-. eapply Hb; reflexivity.
    + destruct (IH _ H) as [Hb Hr]. split; [exact Hb | ].
      intros q d2 v2 [<- | Hq] Hc; [congruence | eauto].
Qed.

End ResampleFacts.

(** C4: every cell of the resampled array that is not NaN holds the
    measurement of one pixel of the swath, a pixel that lies within the
    radius of influence of the centre of the cell.  Nothing is blended: the
    value is a copy. *)
Theorem resample_copies_a_nearby_measurement
  (dist : Qc * Qc -> Qc * Qc -> Qc) (sw : Swath) (ad : AreaDefinition)
  (i j : nat) :
  isnan (get2 (resample dist sw ad) i j) = false ->
  exists (p : pixel) (x y : Qc),
    In p sw /\
    get2 (resample dist sw ad) i j = tsm p /\
    lon p = Fin x /\ lat p = Fin y /\
    (dist (cell_lon ad j, cell_lat ad i) (x, y) < radius_of_influence)%Qc.
Proof.
  intro Hv. unfold resample in *.
  destruct (Nat.lt_ge_cases i (area_height ad)) as [Hi | Hi];
    [ | rewrite get2_tabulate_outside in Hv by (now left); discriminate].
  destruct (Nat.lt_ge_cases j (area_width ad)) as [Hj | Hj];
    [ | rewrite get2_tabulate_outside in Hv by (now right); discriminate].
  rewrite get2_tabulate in * by assumption.
  unfold sample in *.
  destruct (nearest dist (cell_lon ad j, cell_lat ad i) sw None)
    as [[d v] | ] eqn:E; [ | discriminate].
  apply nearest_origin in E. destruct E as [E | [p [Hp Hc]]]; [discriminate | ].
  apply candidate_inv in Hc.
  destruct Hc as [x [y [Hx [Hy [Hval [Hd Hlt]]]]]].
  exists p, x, y. rewrite <- Hd. auto.
Qed.

Lemma resample_copies_a_nearby_measurement_witness :
  exists (p : pixel) (x y : Qc),
    In p swath1 /\
    get2 (resample flat_dist swath1 unit_area) 0 0 = tsm p /\
    lon p = Fin x /\ lat p = Fin y /\
    (flat_dist (cell_lon unit_area 0, cell_lat unit_area 0) (x, y)
     < radius_of_influence)%Qc.
Proof.
  apply (@resample_copies_a_nearby_measurement flat_dist swath1 unit_area 0 0).
  vm_compute. reflexivity.
Defined.

Example resample_unit_area :
  resample flat_dist swath1 unit_area = [[Fin (Q2Qc 7)]].
Proof. vm_compute. reflexivity. Qed.

(** ** Step 3 on a swath without valid pixel *)

(** C5, as the code has it: on a swath without valid pixel
    [create_geotiff_from_swath] prints its message and returns; it raises
    nothing and writes no raster, and the loop of step 3 goes on with the
    products that follow. *)
Theorem empty_swath_prints_and_returns
  (dist : Qc * Qc -> Qc * Qc -> Qc) (sw : Swath) (out_name : string)
  (res_deg : Qc) (name : string) (rest : list Product) (w : world) :
  mask_sum sw = 0%nat ->
  let w' := {| stdout := stdout w ++ ["   No valid pixels"%string]; files := files w |} in
  create_geotiff_from_swath dist sw out_name res_deg w = (Ok tt, w') /\
  step3 dist ({| sen3_name := name; netcdf := Some sw |} :: rest) w
  = step3 dist rest w'.
Proof.
  intro H. cbv zeta.
  assert (E : create_geotiff_from_swath dist sw out_name res_deg w
              = (Ok tt, {| stdout := stdout w ++ ["   No valid pixels"%string];
                           files := files w |})).
  { unfold create_geotiff_from_swath. rewrite H. reflexivity. }
  split; [exact E | ].
  unfold step3. cbn [for_each netcdf sen3_name]. unfold bind at 1.
  unfold create_geotiff_from_swath. rewrite H. reflexivity.
Qed.

Lemma empty_swath_prints_and_returns_witness :
  let w' := {| stdout := stdout empty_world ++ ["   No valid pixels"%string];
               files := files empty_world |} in
  create_geotiff_from_swath flat_dist cloudy_swath "TSM_A.SEN3.tif"
    OUTPUT_RES_DEG empty_world = (Ok tt, w') /\
  step3 flat_dist ({| sen3_name := "A.SEN3"; netcdf := Some cloudy_swath |} :: [])
    empty_world
  = step3 flat_dist [] w'.
Proof.
  apply (@empty_swath_prints_and_returns flat_dist cloudy_swath "TSM_A.SEN3.tif"
           OUTPUT_RES_DEG "A.SEN3" [] empty_world).
  reflexivity.
Defined.

(** C5 as the specification words it fails on a swath whose measurements are
    all NaN: the call does not fail, it returns normally. *)
Lemma empty_swath_raises_nothing :
  mask_sum cloudy_swath = 0%nat /\
  create_geotiff_from_swath flat_dist cloudy_swath "TSM_A.SEN3.tif"
    OUTPUT_RES_DEG empty_world
  = (Ok tt, {| stdout := ["   No valid pixels"%string]; files := [] |}).
Proof. split; reflexivity. Qed.

(** ** Step 5 on a raster outside the region of interest *)

Lemma this_mult (a b : Qc) : (this (a * b)%Qc == this a * this b)%Q.
Proof. unfold Qcmult. apply this_Q2Qc. Qed.

Lemma this_opp (a : Qc) : (this (- a)%Qc == - this a)%Q.
Proof. unfold Qcopp. apply this_Q2Qc. Qed.

Lemma this_minus (a b : Qc) : (this (a - b)%Qc == this a - this b)%Q.
Proof. unfold Qcminus. rewrite this_plus, this_opp. reflexivity. Qed.

Lemma this_of_nat (n : nat) : (this (of_nat n) == inject_Z (Z.of_nat n))%Q.
Proof. unfold of_nat. apply this_Q2Qc. Qed.

Lemma this_half : (this half == 1 # 2)%Q.
Proof. reflexivity. Qed.

(** The centre of a pixel of a raster lies strictly inside its extent. *)
Lemma pixel_x_inside (m : Meta) (j : nat) :
  (Q2Qc 0 < res_x (transform m))%Qc -> (j < width m)%nat ->
  (left m < pixel_x (transform m) j)%Qc /\
  (pixel_x (transform m) j < right m)%Qc.
Proof.
  intros Hr Hj. unfold left, right, pixel_x.
  destruct (transform m) as [x0 y0 rx ry]. cbn [origin_x res_x] in *.
  unfold Qclt in *. change (this (Q2Qc 0)) with 0%Q in Hr.
  rewrite !this_plus, !this_mult, this_plus, !this_of_nat, this_half.
  assert (Hj0 : (0 <= inject_Z (Z.of_nat j))%Q).
  { change 0%Q with (inject_Z 0). rewrite <- Zle_Qle. lia. }
  assert (Hjw : (inject_Z (Z.of_nat j) + 1 <= inject_Z (Z.of_nat (width m)))%Q).
  { change 1%Q with (inject_Z 1). rewrite <- inject_Z_plus, <- Zle_Qle. lia. }
  split; nra.
Qed.

Lemma pixel_y_inside (m : Meta) (i : nat) :
  (Q2Qc 0 < res_y (transform m))%Qc -> (i < height m)%nat ->
  (bottom m < pixel_y (transform m) i)%Qc /\
  (pixel_y (transform m) i < top m)%Qc.
Proof.
  intros Hr Hi. unfold top, bottom, pixel_y.
  destruct (transform m) as [x0 y0 rx ry]. cbn [origin_y res_y] in *.
  unfold Qclt in *. change (this (Q2Qc 0)) with 0%Q in Hr.
  rewrite !this_minus, !this_mult, this_plus, !this_of_nat, this_half.
  assert (Hi0 : (0 <= inject_Z (Z.of_nat i))%Q).
  { change 0%Q with (inject_Z 0). rewrite <- Zle_Qle. lia. }
  assert (Hih : (inject_Z (Z.of_nat i) + 1 <= inject_Z (Z.of_nat (height m)))%Q).
  { change 1%Q with (inject_Z 1). rewrite <- inject_Z_plus, <- Zle_Qle. lia. }
  split; nra.
Qed.

Lemma first_true_all_false (l : list bool) :
  Forall (eq false) l -> first_true l = None.
Proof.
  induction 1 as [ | b l <- _ IH]; [reflexivity | ]. simpl. now rewrite IH.
Qed.

Lemma existsb_all_false {A} (f : A -> bool) (l : list A) :
  (forall x, In x l -> f x = false) -> existsb f l = false.
Proof.
  intro H. induction l as [ | a l IH]; [reflexivity | ]. simpl.
  rewrite H by now left. apply IH. intros x Hx. apply H. now right.
Qed.

(** The monad laws the loops rely on. *)
Lemma bind_raise {A B} (m : M A) (k : A -> M B) (w w' : world) (e : exn) :
  m w = (Raise e, w') -> bind m k w = (Raise e, w').
Proof. intro H. unfold bind. now rewrite H. Qed.

Lemma for_each_app_raise {A} (body : A -> M unit) (done : list A) (x : A)
  (later : list A) (w w1 w2 : world) (e : exn) :
  for_each done body w = (Ok tt, w1) ->
  body x w1 = (Raise e, w2) ->
  for_each (done ++ x :: later) body w = (Raise e, w2).
Proof.
  revert w. induction done as [ | d done IH]; intros w Hd Hx; simpl in *.
  - injection Hd as <-. now apply bind_raise.
  - unfold bind in *. destruct (body d w) as [[[] | e'] w0]; [ | discriminate].
    now apply IH.
Qed.

Section ClipFacts.

Variable Geometry : Type.
Variable to_crs : string -> string -> Geometry -> Geometry.
Variable covers : Geometry -> Qc -> Qc -> bool.
Variable total_bounds : Geometry -> Qc * Qc * Qc * Qc.

(** A position inside a geometry is inside its bounding box. *)
Hypothesis covers_in_bounds : forall g x y,
  covers g x y = true ->
  let '(minx, miny, maxx, maxy) := total_bounds g in
  (minx <= x)%Qc /\ (x <= maxx)%Qc /\ (miny <= y)%Qc /\ (y <= maxy)%Qc.

Lemma clip_mask_disjoint (m : Meta) (g : Geometry) (i j : nat) :
  (Q2Qc 0 < res_x (transform m))%Qc -> (Q2Qc 0 < res_y (transform m))%Qc ->
  disjoint_extents total_bounds m g ->
  (i < height m)%nat -> (j < width m)%nat ->
  clip_mask covers m g i j = false.
Proof.
  intros Hx Hy Hdis Hi Hj. unfold clip_mask.
  destruct (covers g _ _) eqn:E; [ | reflexivity]. exfalso.
  apply covers_in_bounds in E. unfold disjoint_extents in Hdis.
  destruct (total_bounds g) as [[[minx miny] maxx] maxy].
  destruct E as [E1 [E2 [E3 E4]]].
  destruct (pixel_x_inside m Hx Hj) as [X1 X2].
  destruct (pixel_y_inside m Hy Hi) as [Y1 Y2].
  destruct Hdis as [D | [D | [D | D]]].
  - apply (Qcle_not_lt _ _ E2). eapply Qclt_trans; eassumption.
  - apply (Qcle_not_lt _ _ E1). eapply Qclt_trans; eassumption.
  - apply (Qcle_not_lt _ _ E4). eapply Qclt_trans; eassumption.
  - apply (Qcle_not_lt _ _ E3). eapply Qclt_trans; eassumption.
Qed.

Lemma rio_clip_disjoint (r : Raster) (g : Geometry) :
  (Q2Qc 0 < res_x (transform (meta r)))%Qc ->
  (Q2Qc 0 < res_y (transform (meta r)))%Qc ->
  disjoint_extents total_bounds (meta r) g ->
  rio_clip covers r g = Raise NoDataInBounds.
Proof.
  intros Hx Hy Hdis. unfold rio_clip. cbv zeta.
  rewrite first_true_all_false; [reflexivity | ].
  rewrite Forall_map, Forall_forall. intros i Hi.
  apply in_seq in Hi. symmetry. apply existsb_all_false.
  intros j Hj. apply in_seq in Hj.
  apply clip_mask_disjoint; (assumption || lia).
Qed.

(** C7, as the code has it: when the extent of a raster and the bounding
    box of the region are disjoint, the clip raises [NoDataInBounds]; the
    loop of step 5 does not catch it: the run stops there with that
    exception, in the state reached by the rasters clipped before, and the
    rasters that follow are not clipped. *)
Theorem disjoint_roi_stops_step5
  (roi : ROI Geometry) (w w1 : world)
  (done : list (string * Raster)) (name : string) (r : Raster)
  (later : list (string * Raster)) :
  (Q2Qc 0 < res_x (transform (meta r)))%Qc ->
  (Q2Qc 0 < res_y (transform (meta r)))%Qc ->
  disjoint_extents total_bounds (meta r)
    (roi_in_raster_crs to_crs (meta r) roi) ->
  tif_files recl_dir w = done ++ (name, r) :: later ->
  for_each done (fun t => clip_geotiff to_crs covers (snd t) roi (fst t)) w
  = (Ok tt, w1) ->
  clip_geotiff to_crs covers r roi name w1 = (Raise NoDataInBounds, w1) /\
  step5 to_crs covers roi w = (Raise NoDataInBounds, w1).
Proof.
  intros Hx Hy Hdis Hglob Hdone.
  assert (Hclip : clip_geotiff to_crs covers r roi name w1
                  = (Raise NoDataInBounds, w1)).
  { unfold clip_geotiff. now rewrite rio_clip_disjoint. }
  split; [exact Hclip | ].
  unfold step5. unfold bind at 1, glob_tif. rewrite Hglob.
  now apply for_each_app_raise with (w1 := w1).
Qed.

End ClipFacts.

(** [main] has no handler either: an exception of step 5 is the outcome of
    the run, and step 6 is not reached. *)
Lemma main_propagates_step5_exception
  (dist : Qc * Qc -> Qc * Qc -> Qc) (Geometry : Type)
  (to_crs : string -> string -> Geometry -> Geometry)
  (covers : Geometry -> Qc -> Qc -> bool)
  (products : list Product) (roi : ROI Geometry)
  (w w2 w3 w4 : world) (e : exn) :
  step3 dist products (snd (print "STEP 3: CREATE GEOTIFFS" w)) = (Ok tt, w2) ->
  step4 (snd (print "STEP 4: RECLASSIFY NEGATIVE TSM VALUES" w2)) = (Ok tt, w3) ->
  step5 to_crs covers roi (snd (print "STEP 5: CLIP GEOTIFFS" w3)) = (Raise e, w4) ->
  main dist to_crs covers products roi w = (Raise e, w4).
Proof.
  intros H3 H4 H5. unfold main.
  unfold bind at 1. cbn [print].
  unfold bind at 1. cbn [print snd] in H3. rewrite H3.
  unfold bind at 1. cbn [print].
  unfold bind at 1. cbn [print snd] in H4. rewrite H4.
  unfold bind at 1. cbn [print].
  unfold bind at 1. cbn [print snd] in H5. rewrite H5.
  reflexivity.
Qed.

Lemma box_covers_in_bounds (g : Box) (x y : Qc) :
  box_covers g x y = true ->
  let '(minx, miny, maxx, maxy) := box_bounds g in
  (minx <= x)%Qc /\ (x <= maxx)%Qc /\ (miny <= y)%Qc /\ (y <= maxy)%Qc.
Proof.
  destruct g as [[[minx miny] maxx] maxy]. unfold box_covers, box_bounds.
  intro H. repeat (apply andb_true_iff in H; destruct H as [H ?]).
  repeat split; now apply Qcle_bool_iff.
Defined.

Lemma disjoint_roi_stops_step5_witness :
  clip_geotiff box_to_crs box_covers sample_raster far_roi "TSM_A.SEN3.tif"%string
    recl_world = (Raise NoDataInBounds, recl_world) /\
  step5 box_to_crs box_covers far_roi recl_world
  = (Raise NoDataInBounds, recl_world).
Proof.
  apply (@disjoint_roi_stops_step5 Box box_to_crs box_covers box_bounds
           box_covers_in_bounds far_roi recl_world recl_world
           [] "TSM_A.SEN3.tif"%string sample_raster
           [("TSM_B.SEN3.tif"%string, pass_a)]).
  - reflexivity.
  - reflexivity.
  - right. left. reflexivity.
  - reflexivity.
  - reflexivity.
Defined.

(** C7 as the specification words it fails on a run of two products, the
    first outside the region and the second inside: the exception of the
    first clip ends the run; the second product, whose clip would succeed, is
    never clipped, and no composite is written. *)
Lemma disjoint_roi_ends_the_run :
  fst run_two = Raise NoDataInBounds /\
  tif_files clip_dir (snd run_two) = [] /\
  tif_files composite_dir (snd run_two) = [] /\
  exists rB c,
    nth_error (tif_files recl_dir (snd run_two)) 1
    = Some ("TSM_B.SEN3.tif"%string, rB) /\
    rio_clip box_covers rB (roi_geometry far_roi) = Ok c.
Proof.
  split. { vm_compute. reflexivity. }
  split. { vm_compute. reflexivity. }
  split. { vm_compute. reflexivity. }
  eexists. eexists. split.
  - vm_compute. reflexivity.
  - vm_compute. reflexivity.
Qed.

(** ** Grouping by date *)

Lemma for_each_keeps_stdout {A} (body : A -> M unit) (l : list A) :
  (forall x w, stdout (snd (body x w)) = stdout w) ->
  forall w, stdout (snd (for_each l body w)) = stdout w.
Proof.
  intro Hbody. induction l as [ | x l IH]; intro w; simpl; [reflexivity | ].
  unfold bind. specialize (Hbody x w).
  destruct (body x w) as [[[] | e] w']; simpl in *.
  - now rewrite IH.
  - exact Hbody.
Qed.

(** Step 6 of [main] prints nothing: a file that the grouping passes over
    leaves no trace on standard output. *)
Lemma step6_prints_nothing (w : world) : stdout (snd (step6 w)) = stdout w.
Proof.
  unfold step6, bind at 1, glob_glob_tif.
  apply for_each_keeps_stdout. intros g w0.
  destruct (merge_and_average (snd g)) as [[[[arr shape] t] m] | e]; reflexivity.
Qed.

(** A file without date key takes no part in the grouping. *)
Lemma group_files_skips_undated {A} (name : string) (f : A)
  (rest : list (string * A)) (grouped : list (string * list A)) :
  search_date name = None ->
  group_files ((name, f) :: rest) grouped = group_files rest grouped.
Proof. intro H. simpl. now rewrite H. Qed.

(** The sibling path in [s3_process.py]: a name without time stamp is
    reported on standard output and left out of the stack. *)
Lemma load_dataarrays_reports_undated
  (datetime : Type) (strptime : string -> option datetime)
  (name : string) (content : opened)
  (rest : list (string * opened))
  (dataarrays : list (datetime * array2)) (w : world) :
  scan_parts strptime (split_underscore (stem name)) = None ->
  extract_datetime_from_filename strptime name w
  = (Ok None,
     {| stdout := stdout w ++ [("Could not extract timestamp from " ++ name)%string];
        files := files w |}) /\
  load_dataarrays strptime ((name, content) :: rest) dataarrays w
  = load_dataarrays strptime rest dataarrays
      {| stdout := (stdout w ++ [("Processing: " ++ name)%string])
                   ++ [("Could not extract timestamp from " ++ name)%string];
         files := files w |}.
Proof.
  intro H. split.
  - unfold extract_datetime_from_filename. rewrite H. reflexivity.
  - cbn [load_dataarrays]. unfold bind at 1. cbn [print].
    unfold bind at 1. unfold extract_datetime_from_filename. rewrite H.
    reflexivity.
Qed.

(** C6 on the daily-composite path of [main]: the clipped raster
    [TSM_mosaic.SEN3.tif] carries no date; the grouping leaves it out, the
    run ends normally with the one composite of the dated file, and standard
    output stays empty: the exclusion is reported nowhere. *)
Theorem undated_file_is_dropped_silently :
  search_date "TSM_mosaic.SEN3.tif" = None /\
  group_files (tif_files clip_dir clipped_world) []
  = [("20180105"%string, [pass_b])] /\
  fst (step6 clipped_world) = Ok tt /\
  stdout (snd (step6 clipped_world)) = [] /\
  map fst (tif_files composite_dir (snd (step6 clipped_world)))
  = ["TSM_daily_20180105.tif"%string].
Proof.
  split. { vm_compute. reflexivity. }
  split. { vm_compute. reflexivity. }
  split. { vm_compute. reflexivity. }
  split. { apply step6_prints_nothing. }
  vm_compute. reflexivity.
Qed.

(* ================================================================== *)
(** * Further properties of the pipeline *)
(* ================================================================== *)

(** ** Further properties of the reclassifier *)

Lemma reclass_value_not_negative (v : fval) : flt (reclass_value v) zero = false.
Proof.
  unfold reclass_value.
  destruct (flt v zero && negb (isnan v)) eqn:E; [reflexivity | ].
  apply andb_false_iff in E. destruct E as [E | E]; [exact E | ].
  apply negb_false_iff in E. destruct v; try discriminate. reflexivity.
Qed.

(** After reclassification no pixel of the raster is below zero, at any
    position. *)
Theorem reclassified_raster_has_no_negative_value (r : Raster) (i j : nat) :
  flt (get2 (band (reclassify_negative_to_zero r)) i j) zero = false.
Proof. rewrite reclassify_get2. apply reclass_value_not_negative. Qed.

(** ** The date key of a file name *)

Lemma digits_at_some (n : nat) (s d : string) :
  digits_at n s = Some d ->
  String.length d = n /\ all_digits d = true /\ exists post, s = (d ++ post)%string.
Proof.
  revert s d. induction n as [ | n IH]; intros s d H; simpl in H.
  - injection H as <-. repeat split. now exists s.
  - destruct s as [ | c s']; [discriminate | ].
    destruct (is_digit c) eqn:Ec; [ | discriminate].
    destruct (digits_at n s') as [d' | ] eqn:Ed; [ | discriminate].
    injection H as <-. destruct (IH _ _ Ed) as [Hl [Ha [post Hp]]].
    simpl. rewrite Hl, Ec, Ha. repeat split. exists post. now rewrite Hp.
Qed.

Lemma digits_at_complete (n : nat) (d post : string) :
  String.length d = n -> all_digits d = true ->
  digits_at n (d ++ post) = Some d.
Proof.
  revert d. induction n as [ | n IH]; intros d Hl Ha.
  - destruct d; [reflexivity | discriminate].
  - destruct d as [ | c d]; [discriminate | ]. simpl in *.
    apply andb_true_iff in Ha. destruct Ha as [Hc Ha].
    rewrite Hc, IH by (assumption || lia). reflexivity.
Qed.

Lemma search_date_leftmost (name d : string) :
  search_date name = Some d ->
  exists pre,
    date_match name pre d /\
    forall pre' d', date_match name pre' d' ->
                    (String.length pre <= String.length pre')%nat.
Proof.
  revert d. induction name as [ | c name IH]; intros d H.
  - simpl in H. discriminate.
  - cbn [search_date] in H.
    destruct (digits_at 8 (String c name)) as [d0 | ] eqn:E.
    + injection H as <-. exists EmptyString. split.
      * destruct (digits_at_some _ _ E) as [Hl [Ha Hp]]. now split.
      * intros. simpl. lia.
    + destruct (IH _ H) as [pre [[Hl [Ha [post Hp]]] Hmin]].
      exists (String c pre). split.
      * repeat split; try assumption. exists post. simpl. now rewrite Hp.
      * intros pre' d' [Hl' [Ha' [post' Hp']]].
        destruct pre' as [ | c' pre'].
        -- simpl in Hp'. rewrite Hp', digits_at_complete in E by assumption.
           discriminate.
        -- simpl in Hp'. injection Hp' as _ Hp'. simpl.
           apply le_n_S. apply (Hmin pre' d'). repeat split; try assumption.
           now exists post'.
Qed.

(** On an ASCII name, when the search succeeds, the key is the leftmost run
    of eight digits of the name: it is a match, and no match starts further
    left. *)
Theorem search_date_is_leftmost_match (name d : string) :
  is_ascii name = true ->
  search_date name = Some d ->
  exists pre,
    date_match name pre d /\
    forall pre' d', date_match name pre' d' ->
                    (String.length pre <= String.length pre')%nat.
Proof. intros _. apply search_date_leftmost. Qed.

(** On the name of a product of 5 January 2018. *)
Lemma search_date_is_leftmost_match_witness :
  exists pre,
    date_match "TSM_S3A_OL_2_WFR____20180105T093000.SEN3.tif" pre "20180105" /\
    forall pre' d',
      date_match "TSM_S3A_OL_2_WFR____20180105T093000.SEN3.tif" pre' d' ->
      (String.length pre <= String.length pre')%nat.
Proof.
  apply (@search_date_is_leftmost_match
           "TSM_S3A_OL_2_WFR____20180105T093000.SEN3.tif" "20180105").
  - reflexivity.
  - reflexivity.
Defined.

Lemma search_date_none (name : string) :
  search_date name = None <-> forall pre d, ~ date_match name pre d.
Proof.
  split.
  - induction name as [ | c name IH]; intros H pre d [Hl [Ha [post Hp]]].
    + destruct d; [discriminate | ]. destruct pre; discriminate.
    + cbn [search_date] in H.
      destruct (digits_at 8 (String c name)) as [d0 | ] eqn:E; [discriminate | ].
      destruct pre as [ | c' pre].
      * simpl in Hp. rewrite Hp, digits_at_complete in E by assumption.
        discriminate.
      * simpl in Hp. injection Hp as _ Hp.
        apply (IH H pre d). repeat split; try assumption. now exists post.
  - intro H. destruct (search_date name) as [d | ] eqn:E; [ | reflexivity].
    destruct (search_date_leftmost _ E) as [pre [Hm _]].
    exfalso. exact (H pre d Hm).
Qed.

(** On an ASCII name the search fails exactly when the name holds no run of
    eight digits. *)
Theorem search_date_none_iff (name : string) :
  is_ascii name = true ->
  (search_date name = None <-> forall pre d, ~ date_match name pre d).
Proof. intros _. apply search_date_none. Qed.

(** A name without digits has no date key. *)
Lemma search_date_none_iff_witness :
  search_date "TSM_mosaic.SEN3.tif" = None
  <-> forall pre d, ~ date_match "TSM_mosaic.SEN3.tif" pre d.
Proof.
  apply (@search_date_none_iff "TSM_mosaic.SEN3.tif"). reflexivity.
Defined.

(** ** Grouping by date key *)

Lemma group_of_setdefault_same {A} (key : string) (f : A)
  (g : list (string * list A)) :
  group_of key (setdefault_append key f g) = group_of key g ++ [f].
Proof.
  induction g as [ | [k l] g IH]; simpl.
  - now rewrite String.eqb_refl.
  - destruct (String.eqb k key) eqn:E; simpl; rewrite E; [reflexivity | exact IH].
Qed.

Lemma group_of_setdefault_other {A} (key key' : string) (f : A)
  (g : list (string * list A)) :
  key <> key' ->
  group_of key' (setdefault_append key f g) = group_of key' g.
Proof.
  intro Hne. induction g as [ | [k l] g IH]; simpl.
  - apply String.eqb_neq in Hne. now rewrite Hne.
  - destruct (String.eqb k key) eqn:E; simpl.
    + apply String.eqb_eq in E. subst k.
      apply String.eqb_neq in Hne. now rewrite Hne.
    + destruct (String.eqb k key'); [reflexivity | exact IH].
Qed.

Lemma keys_setdefault {A} (key : string) (f : A) (g : list (string * list A)) :
  map fst (setdefault_append key f g)
  = if existsb (String.eqb key) (map fst g) then map fst g
    else map fst g ++ [key].
Proof.
  induction g as [ | [k l] g IH]; simpl; [reflexivity | ].
  rewrite (String.eqb_sym key k).
  destruct (String.eqb k key) eqn:E; simpl; [reflexivity | ].
  rewrite IH. now destruct (existsb _ _).
Qed.

Lemma existsb_eqb_In (key : string) (l : list string) :
  existsb (String.eqb key) l = true <-> In key l.
Proof.
  rewrite existsb_exists. split.
  - intros [x [Hx E]]. apply String.eqb_eq in E. now subst.
  - intro H. exists key. split; [exact H | apply String.eqb_refl].
Qed.

Lemma NoDup_keys_setdefault {A} (key : string) (f : A)
  (g : list (string * list A)) :
  NoDup (map fst g) -> NoDup (map fst (setdefault_append key f g)).
Proof.
  intro H. rewrite keys_setdefault.
  destruct (existsb (String.eqb key) (map fst g)) eqn:E; [exact H | ].
  apply NoDup_app; [exact H | repeat constructor; intros [] | ].
  intros x Hx [<- | []].
  apply existsb_eqb_In in Hx. congruence.
Qed.

Lemma nonempty_setdefault {A} (key : string) (f : A)
  (g : list (string * list A)) :
  Forall (fun kl => snd kl <> []) g ->
  Forall (fun kl => snd kl <> []) (setdefault_append key f g).
Proof.
  induction 1 as [ | [k l] g Hl Hg IH]; simpl.
  - repeat constructor. discriminate.
  - destruct (String.eqb k key); constructor; try assumption.
    simpl. intro E. apply app_eq_nil in E. destruct E as [_ E]. discriminate.
Qed.

Lemma group_files_invariant {A} (files : list (string * A))
  (g : list (string * list A)) :
  NoDup (map fst g) -> Forall (fun kl => snd kl <> []) g ->
  let grouped := group_files files g in
  NoDup (map fst grouped) /\
  Forall (fun kl => snd kl <> []) grouped /\
  forall key,
    group_of key grouped
    = group_of key g
      ++ map snd (filter (fun nf => has_date_key key (fst nf)) files).
Proof.
  revert g. induction files as [ | [name f] files IH]; intros g Hnd Hne; cbv zeta.
  - simpl. repeat split; try assumption. intro key. now rewrite app_nil_r.
  - cbn [group_files].
    destruct (search_date name) as [d | ] eqn:E.
    + destruct (IH (setdefault_append d f g)
                  (@NoDup_keys_setdefault _ d f g Hnd)
                  (@nonempty_setdefault _ d f g Hne))
        as [H1 [H2 H3]].
      repeat split; try assumption. intro key. rewrite H3.
      cbn [filter fst]. unfold has_date_key at 2. rewrite E.
      destruct (String.eqb d key) eqn:Ek.
      * apply String.eqb_eq in Ek. subst key.
        rewrite group_of_setdefault_same, <- app_assoc. reflexivity.
      * apply String.eqb_neq in Ek.
        now rewrite group_of_setdefault_other.
    + destruct (IH g Hnd Hne) as [H1 [H2 H3]].
      repeat split; try assumption. intro key. rewrite H3.
      cbn [filter fst]. unfold has_date_key at 2. now rewrite E.
Qed.

(** The grouping of [main] is a partition by date key: the keys of the
    dictionary are pairwise distinct, no group is empty, and the group of a
    key holds exactly the files whose name carries that key, in the order
    of the listing; a file is in no other group. *)
Theorem group_files_partitions_by_date {A} (files : list (string * A)) :
  let grouped := group_files files [] in
  NoDup (map fst grouped) /\
  Forall (fun kl => snd kl <> []) grouped /\
  forall key,
    group_of key grouped
    = map snd (filter (fun nf => has_date_key key (fst nf)) files).
Proof.
  exact (@group_files_invariant A files [] (NoDup_nil _) (Forall_nil _)).
Qed.

(** ** The raster store *)

Lemma dir_eqb_eq (a b : dir) : dir_eqb a b = true <-> a = b.
Proof. destruct a, b; simpl; split; intro H; congruence. Qed.

Lemma same_path_true (d : dir) (n : string) (f : dir * string * Raster) :
  same_path d n f = true <-> fst f = (d, n).
Proof.
  destruct f as [[d' n'] r]. unfold same_path. simpl.
  rewrite andb_true_iff, dir_eqb_eq, String.eqb_eq.
  split; [intros [-> ->]; reflexivity | intro H; injection H as -> ->; auto].
Qed.

(** Writing a raster adds it under its path and leaves the rasters of the
    other paths as they are. *)
Lemma write_raster_files (d : dir) (n : string) (r : Raster) (w : world)
  (f : dir * string * Raster) :
  In f (files (snd (write_raster d n r w)))
  <-> f = (d, n, r) \/ (In f (files w) /\ fst f <> (d, n)).
Proof.
  unfold write_raster. cbn [snd files].
  rewrite in_app_iff, filter_In, negb_true_iff. simpl.
  split.
  - intros [[Hin Hp] | [<- | []]]; [right | now left].
    split; [exact Hin | ]. intro E. apply same_path_true in E. congruence.
  - intros [-> | [Hin Hp]]; [now right; left | left].
    split; [exact Hin | ].
    destruct (same_path d n f) eqn:E; [ | reflexivity].
    apply same_path_true in E. contradiction.
Qed.

Lemma write_raster_ok (d : dir) (n : string) (r : Raster) (w : world) :
  fst (write_raster d n r w) = Ok tt /\
  stdout (snd (write_raster d n r w)) = stdout w.
Proof. split; reflexivity. Qed.

Lemma append_prefix_inj (p a b : string) :
  (p ++ a)%string = (p ++ b)%string -> a = b.
Proof. induction p as [ | c p IH]; simpl; intro H; [exact H | ]. injection H as H. auto. Qed.

Lemma string_length_append (a b : string) :
  String.length (a ++ b) = (String.length a + String.length b)%nat.
Proof. induction a as [ | c a IH]; simpl; [reflexivity | now rewrite IH]. Qed.

Lemma append_suffix_inj (s a b : string) :
  (a ++ s)%string = (b ++ s)%string -> a = b.
Proof.
  revert b. induction a as [ | c a IH]; intros b H.
  - destruct b as [ | c' b]; [reflexivity | ].
    apply (f_equal String.length) in H. simpl in H.
    rewrite string_length_append in H. lia.
  - destruct b as [ | c' b].
    + apply (f_equal String.length) in H. simpl in H.
      rewrite string_length_append in H. lia.
    + simpl in H. injection H as -> H. f_equal. auto.
Qed.

Lemma daily_name_inj (k k' : string) : daily_name k = daily_name k' -> k = k'.
Proof.
  unfold daily_name. intro H.
  apply append_prefix_inj in H. now apply append_suffix_inj in H.
Qed.

(** ** Step 6 as a whole *)

Lemma step6_unfold (w : world) :
  step6 w
  = for_each (group_files (visible_tif_files clip_dir w) []) write_composite w.
Proof. reflexivity. Qed.

Lemma merge_and_average_nonempty (group : list Raster) :
  group <> [] ->
  exists arr shape t m, merge_and_average group = Ok (arr, shape, t, m).
Proof.
  destruct group as [ | first others]; [contradiction | ]. intros _.
  unfold merge_and_average.
  destruct (merge_grid first others) as [[h w] t]. do 4 eexists. reflexivity.
Qed.

Lemma write_composites_spec (gs : list (string * list Raster)) :
  NoDup (map fst gs) -> Forall (fun kl => snd kl <> []) gs ->
  forall w0,
    fst (for_each gs write_composite w0) = Ok tt /\
    (forall key group, In (key, group) gs ->
       exists arr shape t m,
         merge_and_average group = Ok (arr, shape, t, m) /\
         In (composite_dir, daily_name key, composite_raster arr shape t m)
            (files (snd (for_each gs write_composite w0)))) /\
    (forall f,
       fst (fst f) <> composite_dir \/
       ~ In (snd (fst f)) (map daily_name (map fst gs)) ->
       (In f (files (snd (for_each gs write_composite w0))) <-> In f (files w0))).
Proof.
  induction gs as [ | [k l] gs IH]; intros Hnd Hne w0.
  - simpl. split; [reflexivity | split; [intros key group [] | tauto]].
  - inversion Hnd as [ | ? ? Hk Hnd']; subst.
    inversion Hne as [ | ? ? Hl Hne']; subst. simpl in Hl.
    destruct (merge_and_average_nonempty Hl) as [arr [shape [t [m Hm]]]].
    cbn [for_each]. unfold bind.
    assert (Hbody : write_composite (k, l) w0
                    = write_raster composite_dir (daily_name k)
                        (composite_raster arr shape t m) w0).
    { unfold write_composite. cbn [snd fst]. now rewrite Hm. }
    rewrite Hbody.
    set (wa := snd (write_raster composite_dir (daily_name k)
                      (composite_raster arr shape t m) w0)).
    change (write_raster composite_dir (daily_name k)
              (composite_raster arr shape t m) w0) with (Ok tt, wa).
    destruct (IH Hnd' Hne' wa) as [H1 [H2 H3]].
    split; [exact H1 | split].
    + intros key group [E | Hin].
      * injection E as <- <-. exists arr, shape, t, m. split; [exact Hm | ].
        apply H3.
        -- right. cbn [fst snd]. intro Hn. apply in_map_iff in Hn.
           destruct Hn as [k' [Hk' Hin']]. apply daily_name_inj in Hk'.
           subst k'. contradiction.
        -- apply write_raster_files. now left.
      * now apply H2.
    + intros f Hf. rewrite H3.
      * unfold wa. rewrite write_raster_files. split.
        -- intros [-> | [Hin _]]; [ | exact Hin].
           exfalso. destruct Hf as [Hf | Hf]; [now apply Hf | ].
           apply Hf. cbn [fst snd map]. now left.
        -- intro Hin. right. split; [exact Hin | ].
           intro E. destruct f as [[d n] r]. cbn [fst snd] in *.
           injection E as -> ->.
           destruct Hf as [Hf | Hf]; [now apply Hf | ].
           apply Hf. cbn [map]. now left.
      * destruct Hf as [Hf | Hf]; [now left | right].
        intro Hn. apply Hf. cbn [map]. now right.
Qed.


(** Step 6 never raises; the clipped rasters it sees are those that
    [glob.glob] lists, the ones whose name does not start with a dot; for
    every date key among them it writes the composite of the group of that
    key under [TSM_daily_<key>.tif]; and it leaves the rasters of the other
    folders as they are. *)
Theorem step6_writes_one_composite_per_date (w : world) :
  fst (step6 w) = Ok tt /\
  (forall n r, In (n, r) (visible_tif_files clip_dir w)
               <-> In (n, r) (tif_files clip_dir w) /\ hidden n = false) /\
  (forall key group,
     In (key, group) (group_files (visible_tif_files clip_dir w) []) ->
     exists arr shape t m,
       merge_and_average group = Ok (arr, shape, t, m) /\
       In (composite_dir, ("TSM_daily_" ++ key ++ ".tif")%string,
           composite_raster arr shape t m)
          (files (snd (step6 w)))) /\
  (forall d n r, d <> composite_dir ->
     (In (d, n, r) (files (snd (step6 w))) <-> In (d, n, r) (files w))).
Proof.
  rewrite step6_unfold.
  destruct (@group_files_invariant Raster (visible_tif_files clip_dir w) []
              (NoDup_nil _) (Forall_nil _)) as [Hnd [Hne _]].
  destruct (write_composites_spec Hnd Hne w) as [H1 [H2 H3]].
  split; [exact H1 | split; [ | split; [exact H2 | ]]].
  - intros n r. unfold visible_tif_files. rewrite filter_In. cbn [fst].
    rewrite negb_true_iff. reflexivity.
  - intros d n r Hd. apply H3. now left.
Qed.

(** A clipped folder with a hidden raster: step 6 leaves it out. *)
Example step6_passes_over_a_hidden_raster :
  map fst (tif_files clip_dir hidden_world)
  = [".hidden_20180107T000000.tif"; "TSM_A_20180105T093000.tif"]%string /\
  map fst (visible_tif_files clip_dir hidden_world)
  = ["TSM_A_20180105T093000.tif"]%string /\
  map fst (tif_files composite_dir (snd (step6 hidden_world)))
  = ["TSM_daily_20180105.tif"]%string.
Proof.
  split. { reflexivity. }
  split. { reflexivity. }
  vm_compute. reflexivity.
Qed.

(** ** Where a composite has data *)

Lemma fold_fadd_finite (l : list fval) (q : Qc) :
  Forall (fun v => isfinite v = true) l ->
  exists s, fold_left fadd l (Fin q) = Fin s.
Proof.
  revert q. induction l as [ | v l IH]; intros q H; simpl.
  - now exists q.
  - inversion H as [ | ? ? Hv Hl]; subst.
    destruct v as [ | | | x]; try discriminate. simpl. now apply IH.
Qed.

Lemma valid_values_finite (l : list fval) :
  Forall (fun v => isinf v = false) l ->
  Forall (fun v => isfinite v = true) (valid_values l).
Proof.
  intro H. unfold valid_values. rewrite Forall_forall in *.
  intros v Hv. apply filter_In in Hv. destruct Hv as [Hin Hn].
  specialize (H v Hin). destruct v; try discriminate; reflexivity.
Qed.

Lemma valid_values_nil_iff (l : list fval) :
  valid_values l = [] <-> Forall (fun v => isnan v = true) l.
Proof.
  unfold valid_values. induction l as [ | v l IH]; simpl.
  - split; [constructor | reflexivity].
  - destruct (isnan v) eqn:E; simpl.
    + rewrite IH. split; [now constructor | now inversion 1].
    + split; [discriminate | inversion 1; congruence].
Qed.

Lemma nanmean_nan_iff (l : list fval) :
  Forall (fun v => isinf v = false) l ->
  (isnan (nanmean l) = true <-> Forall (fun v => isnan v = true) l).
Proof.
  intro Hinf. rewrite nanmean_mean_valid, <- valid_values_nil_iff.
  pose proof (valid_values_finite Hinf) as Hfin.
  destruct (valid_values l) as [ | v vs] eqn:E.
  - split; reflexivity.
  - split; [ | discriminate]. intro H. exfalso.
    unfold mean, fsum in H.
    destruct (fold_fadd_finite (Q2Qc 0) Hfin) as [s Hs].
    unfold zero in H. rewrite Hs in H. simpl in H. discriminate.
Qed.

(** Where no member of the stack holds an infinity, a pixel of the
    composite is NaN exactly when every member is NaN there: one pass with a
    measurement is enough for the composite to have data. *)
Theorem composite_pixel_is_nan_iff_no_member_has_data
  (h w : nat) (stack : list array2) (i j : nat) :
  (i < h)%nat -> (j < w)%nat ->
  Forall (fun a => isinf (get2 a i j) = false) stack ->
  (isnan (get2 (nanmean_axis0 h w stack) i j) = true
   <-> Forall (fun a => isnan (get2 a i j) = true) stack).
Proof.
  intros Hi Hj Hinf. unfold nanmean_axis0.
  rewrite get2_tabulate by assumption.
  rewrite nanmean_nan_iff by (now rewrite Forall_map).
  now rewrite Forall_map.
Qed.

(** On the two passes of the composite scenario, at the second cell. *)
Lemma composite_pixel_is_nan_iff_no_member_has_data_witness :
  isnan (get2 (nanmean_axis0 1 2 [band pass_a; band pass_b]) 0 1) = true
  <-> Forall (fun a => isnan (get2 a 0 1) = true) [band pass_a; band pass_b].
Proof.
  apply (@composite_pixel_is_nan_iff_no_member_has_data
           1 2 [band pass_a; band pass_b] 0 1).
  - lia.
  - lia.
  - repeat constructor.
Defined.

(** ** Names and time stamps in [s3_process.py] *)

Lemma append_assoc (a b c : string) : ((a ++ b) ++ c = a ++ (b ++ c))%string.
Proof. induction a as [ | x a IH]; simpl; [reflexivity | now rewrite IH]. Qed.

Lemma append_nil_r (a : string) : (a ++ "")%string = a.
Proof. induction a as [ | x a IH]; simpl; [reflexivity | now rewrite IH]. Qed.

Lemma has_char_append (c : ascii) (a b : string) :
  has_char c (a ++ b) = has_char c a || has_char c b.
Proof.
  induction a as [ | x a IH]; simpl; [reflexivity | ].
  now rewrite IH, orb_assoc.
Qed.

Lemma split_on_cons (sep : ascii) (s cur : string) :
  exists p rest, split_on sep s cur = p :: rest.
Proof.
  revert cur. induction s as [ | c s IH]; intro cur; simpl.
  - now exists cur, [].
  - destruct (Ascii.eqb c sep); [now exists cur, (split_on sep s "") | apply IH].
Qed.

Lemma join_split_on (s cur : string) :
  join_underscore (split_on "_" s cur) = (cur ++ s)%string.
Proof.
  revert cur. induction s as [ | c s IH]; intro cur; simpl.
  - now rewrite append_nil_r.
  - destruct (Ascii.eqb c "_") eqn:E.
    + apply Ascii.eqb_eq in E. subst c.
      destruct (split_on_cons "_" s "") as [p [rest Hp]].
      specialize (IH EmptyString). rewrite Hp in *.
      change (join_underscore (cur :: p :: rest))
        with (cur ++ "_" ++ join_underscore (p :: rest))%string.
      rewrite IH. reflexivity.
    + rewrite IH, append_assoc. reflexivity.
Qed.

Lemma split_on_no_sep (sep : ascii) (s cur : string) :
  has_char sep cur = false ->
  Forall (fun p => has_char sep p = false) (split_on sep s cur).
Proof.
  revert cur. induction s as [ | c s IH]; intros cur H; simpl.
  - now constructor.
  - destruct (Ascii.eqb c sep) eqn:E.
    + constructor; [exact H | now apply IH].
    + apply IH. rewrite has_char_append, H. simpl. now rewrite E.
Qed.

(** The parts of [s.split("_")] are the pieces of [s] between its
    underscores: none holds an underscore, and joined by underscores they
    give [s] back. *)
Theorem split_underscore_round_trip (s : string) :
  join_underscore (split_underscore s) = s /\
  Forall (fun p => has_char "_" p = false) (split_underscore s).
Proof.
  unfold split_underscore. split.
  - apply join_split_on.
  - now apply split_on_no_sep.
Qed.

Lemma rfind_dot_append (a b : string) (pos : nat) (found : option nat) :
  rfind_dot (a ++ b) pos found
  = rfind_dot b (pos + String.length a) (rfind_dot a pos found).
Proof.
  revert pos found. induction a as [ | c a IH]; intros pos found; simpl.
  - now rewrite Nat.add_0_r.
  - rewrite IH. f_equal. lia.
Qed.

Lemma rfind_dot_no_dot (s : string) (pos : nat) (found : option nat) :
  has_char "." s = false -> rfind_dot s pos found = found.
Proof.
  revert pos found. induction s as [ | c s IH]; intros pos found H; simpl in *.
  - reflexivity.
  - apply orb_false_iff in H. destruct H as [Hc Hs].
    rewrite Hc. now apply IH.
Qed.

Lemma substring_prefix (a b : string) :
  substring 0 (String.length a) (a ++ b) = a.
Proof.
  induction a as [ | c a IH]; simpl.
  - now destruct b.
  - now rewrite IH.
Qed.

(** [Path.stem] removes the last suffix and nothing else: from
    [base.ext], with [ext] free of dots, it gives [base]; a name without
    dot, or whose only dot is its first character, is its own stem. *)
Theorem stem_strips_the_last_suffix (base ext : string) :
  has_char "." ext = false ->
  (base <> EmptyString -> ext <> EmptyString ->
   stem (base ++ "." ++ ext) = base) /\
  stem ext = ext /\
  stem ("." ++ ext) = ("." ++ ext)%string.
Proof.
  intro Hext. split; [ | split].
  - intros Hb He. unfold stem.
    rewrite rfind_dot_append. simpl.
    rewrite (rfind_dot_no_dot _ _ _ Hext).
    rewrite string_length_append. simpl.
    replace (0 <? String.length base)%nat with true
      by (symmetry; apply Nat.ltb_lt; destruct base; [contradiction | simpl; lia]).
    replace (String.length base
             <? String.length base + S (String.length ext) - 1)%nat with true
      by (symmetry; apply Nat.ltb_lt; destruct ext; [contradiction | simpl; lia]).
    apply substring_prefix.
  - unfold stem. now rewrite (rfind_dot_no_dot _ _ _ Hext).
  - unfold stem. simpl. now rewrite (rfind_dot_no_dot _ _ _ Hext).
Qed.

(** On the name of a gridded raster. *)
Lemma stem_strips_the_last_suffix_witness :
  ("TSM_20180105T093000"%string <> EmptyString ->
   "tif"%string <> EmptyString ->
   stem ("TSM_20180105T093000" ++ "." ++ "tif") = "TSM_20180105T093000"%string) /\
  stem "tif" = "tif"%string /\
  stem ("." ++ "tif") = ("." ++ "tif")%string.
Proof.
  apply (@stem_strips_the_last_suffix "TSM_20180105T093000" "tif").
  reflexivity.
Defined.

Section TimestampFacts.

Variable datetime : Type.
Variable strptime : string -> option datetime.

Lemma scan_parts_first (pre post : list string) (part : string) :
  Forall (fun p => stamp_like p = false) pre ->
  stamp_like part = true ->
  scan_parts strptime (pre ++ part :: post) = strptime part.
Proof.
  intros Hpre Hpart. induction Hpre as [ | p pre Hp _ IH]; simpl.
  - unfold stamp_like in Hpart. now rewrite Hpart.
  - unfold stamp_like in Hp. now rewrite Hp.
Qed.

Lemma scan_parts_none (parts : list string) :
  Forall (fun p => stamp_like p = false) parts ->
  scan_parts strptime parts = None.
Proof.
  induction 1 as [ | p parts Hp _ IH]; simpl; [reflexivity | ].
  unfold stamp_like in Hp. now rewrite Hp.
Qed.

(** On an ASCII name, the first part of the stem that reads like a time
    stamp decides: the result is what [strptime] makes of that part, and
    when [strptime] rejects it the file has no time stamp, whatever the
    parts that follow. *)
Theorem first_stamp_like_part_decides
  (name : string) (pre post : list string) (part : string) (w : world) :
  is_ascii name = true ->
  split_underscore (stem name) = pre ++ part :: post ->
  Forall (fun p => stamp_like p = false) pre ->
  stamp_like part = true ->
  extract_datetime_from_filename strptime name w
  = match strptime part with
    | Some t => (Ok (Some t), w)
    | None => (Ok None, could_not_extract name w)
    end.
Proof.
  intros _ Hsplit Hpre Hpart. unfold extract_datetime_from_filename.
  rewrite Hsplit, scan_parts_first by assumption.
  destruct (strptime part); reflexivity.
Qed.

(** An ASCII name whose stem has no part of fifteen characters starting
    with ["20"] has no time stamp, and says so once on standard output. *)
Theorem no_stamp_like_part_no_timestamp (name : string) (w : world) :
  is_ascii name = true ->
  Forall (fun p => stamp_like p = false) (split_underscore (stem name)) ->
  extract_datetime_from_filename strptime name w
  = (Ok None, could_not_extract name w).
Proof.
  intros _ H. unfold extract_datetime_from_filename.
  now rewrite scan_parts_none by assumption.
Qed.

(** On ASCII names step 4D never raises.  It stacks, in the order of the
    listing, the files that have a time stamp and can be opened, each once
    with its time stamp; every file is announced, a file without time stamp
    is reported, and a file that cannot be opened is reported with the
    message of its exception. *)
Theorem load_dataarrays_stacks_the_stamped_files
  (files0 : list (string * opened))
  (dataarrays : list (datetime * array2)) (w : world) :
  Forall (fun f => is_ascii (fst f) = true) files0 ->
  load_dataarrays strptime files0 dataarrays w
  = (Ok (dataarrays ++ flat_map (stacked strptime) files0),
     {| stdout := stdout w ++ flat_map (lines_for strptime) files0;
        files := files w |}).
Proof.
  intros _. revert dataarrays w.
  induction files0 as [ | [name content] rest IH]; intros dataarrays w.
  - simpl. rewrite !app_nil_r. now destruct w.
  - cbn [load_dataarrays]. unfold bind at 1. cbn [print].
    unfold bind at 1. unfold extract_datetime_from_filename.
    cbn [flat_map]. unfold stacked at 1, lines_for at 1. cbn [fst snd].
    destruct (scan_parts strptime (split_underscore (stem name))) as [t | ].
    + cbn [ret]. destruct content as [da | message].
      * rewrite IH. cbn [stdout files]. rewrite <- !app_assoc. reflexivity.
      * unfold bind at 1. cbn [print]. rewrite IH. cbn [stdout files].
        rewrite <- !app_assoc. reflexivity.
    + unfold bind at 1. cbn [print ret]. rewrite IH. cbn [stdout files].
      rewrite <- !app_assoc. reflexivity.
Qed.

End TimestampFacts.

(** On a name without time stamp. *)
Lemma no_stamp_like_part_no_timestamp_witness :
  extract_datetime_from_filename stamp_text "TSM_mosaic.tif" empty_world
  = (Ok None, could_not_extract "TSM_mosaic.tif" empty_world).
Proof.
  apply (@no_stamp_like_part_no_timestamp string stamp_text
           "TSM_mosaic.tif" empty_world).
  - reflexivity.
  - repeat constructor.
Defined.

(** Three files: one stacked, one whose name has no time stamp, one that
    cannot be opened. *)
Lemma load_dataarrays_stacks_the_stamped_files_witness :
  load_dataarrays stamp_text three_files [] empty_world
  = (Ok [("20180105T093000"%string, band pass_a)],
     {| stdout :=
          [ "Processing: TSM_A_20180105T093000.tif";
            "Processing: TSM_mosaic.tif";
            "Could not extract timestamp from TSM_mosaic.tif";
            "Processing: TSM_B_20180106T101500.tif";
            "Skipping TSM_B_20180106T101500.tif due to error: not a raster"
          ]%string;
        files := [] |}).
Proof.
  apply (@load_dataarrays_stacks_the_stamped_files string stamp_text
           three_files [] empty_world).
  repeat constructor.
Defined.

(** A name whose first part of fifteen characters is no time stamp: the
    well-formed time stamp that follows is never read. *)
Lemma first_stamp_like_part_decides_witness :
  extract_datetime_from_filename stamp_text
    "TSM_20AB0105T093000_20180105T093000.tif" empty_world
  = (Ok None,
     could_not_extract "TSM_20AB0105T093000_20180105T093000.tif" empty_world).
Proof.
  apply (@first_stamp_like_part_decides string stamp_text
           "TSM_20AB0105T093000_20180105T093000.tif"
           ["TSM"%string] ["20180105T093000"%string] "20AB0105T093000"
           empty_world).
  - reflexivity.
  - reflexivity.
  - repeat constructor.
  - reflexivity.
Defined.

(** ** The raster written by step 3 *)

Lemma grid_definition_inv (sw : Swath) (res_deg : Qc) (ad : AreaDefinition) :
  grid_definition sw res_deg = Some ad ->
  res_deg <> Q2Qc 0 /\
  area_width ad
  = Z.to_nat (Qceiling ((lon_max ad - lon_min ad) / res_deg)%Qc) /\
  area_height ad
  = Z.to_nat (Qceiling ((lat_max ad - lat_min ad) / res_deg)%Qc).
Proof.
  unfold grid_definition.
  destruct (nanmin (map lat sw)) as [la0 | ]; [ | discriminate].
  destruct (nanmax (map lat sw)) as [la1 | ]; [ | discriminate].
  destruct (nanmin (map lon sw)) as [lo0 | ]; [ | discriminate].
  destruct (nanmax (map lon sw)) as [lo1 | ]; [ | discriminate].
  unfold arange_len.
  destruct la0 as [ | | | a0]; try discriminate.
  destruct la1 as [ | | | a1]; try discriminate.
  destruct (Qc_eq_dec res_deg (Q2Qc 0)) as [E | Hne]; [discriminate | ].
  destruct lo0 as [ | | | o0]; try discriminate.
  destruct lo1 as [ | | | o1]; try discriminate.
  simpl. intro H. injection H as <-. simpl. auto.
Qed.

Lemma of_nat_pos (n : nat) : (1 <= n)%nat -> (Q2Qc 0 < of_nat n)%Qc.
Proof.
  intro H. unfold Qclt. rewrite this_of_nat.
  change (this (Q2Qc 0)) with (inject_Z 0). rewrite <- Zlt_Qlt. lia.
Qed.

Lemma ceiling_count_above (x : Qc) :
  (1 <= Z.to_nat (Qceiling x))%nat -> (x <= of_nat (Z.to_nat (Qceiling x)))%Qc.
Proof.
  intro H. unfold Qcle. rewrite this_of_nat.
  rewrite Z2Nat.id by lia. apply Qle_ceiling.
Qed.

(** The pixel size of a lattice of [n >= 1] cells over an extent of length
    [len], [n] being the length of [np.arange(_, _, res)]: positive, at most
    [res], and [n] pixels cover the extent. *)
Lemma pixel_size_bounds (len res : Qc) (n : nat) :
  (Q2Qc 0 < res)%Qc ->
  n = Z.to_nat (Qceiling (len / res)%Qc) -> (1 <= n)%nat ->
  (Q2Qc 0 < len / of_nat n)%Qc /\ (len / of_nat n <= res)%Qc /\
  (of_nat n * (len / of_nat n) = len)%Qc.
Proof.
  intros Hres Hn H1.
  pose proof (@of_nat_pos _ H1) as HN.
  assert (HN0 : of_nat n <> Q2Qc 0) by now apply Qclt_neq.
  assert (Hres0 : res <> Q2Qc 0) by now apply Qclt_neq.
  assert (Hx : (Q2Qc 0 < len / res)%Qc).
  { apply ceiling_count_pos. now rewrite <- Hn. }
  assert (Hlen : (Q2Qc 0 < len)%Qc).
  { replace len with (len / res * res)%Qc by (field; assumption).
    rewrite <- (Qcmult_0_l res). now apply Qcmult_lt_compat_r. }
  assert (Hup : (len / res <= of_nat n)%Qc).
  { rewrite Hn. apply ceiling_count_above. now rewrite <- Hn. }
  split; [ | split].
  - apply Qcnot_le_lt. intro Hle.
    apply (Qcmult_le_compat_r _ _ (of_nat n)) in Hle;
      [ | now apply Qclt_le_weak].
    rewrite Qcmult_0_l in Hle.
    replace (len / of_nat n * of_nat n)%Qc with len in Hle by (field; assumption).
    exact (Qcle_not_lt _ _ Hle Hlen).
  - apply (Qcmult_lt_0_le_reg_r _ _ (of_nat n) HN).
    replace (len / of_nat n * of_nat n)%Qc with len by (field; assumption).
    apply (Qcmult_le_compat_r _ _ res) in Hup; [ | now apply Qclt_le_weak].
    replace (len / res * res)%Qc with len in Hup by (field; assumption).
    now rewrite Qcmult_comm.
  - field. assumption.
Qed.

Lemma gridded_raster_well_formed (dist : Qc * Qc -> Qc * Qc -> Qc)
  (sw : Swath) (res_deg : Qc) (ad : AreaDefinition) :
  (Q2Qc 0 < res_deg)%Qc ->
  grid_definition sw res_deg = Some ad ->
  (1 <= area_width ad)%nat -> (1 <= area_height ad)%nat ->
  let r := gridded_raster dist sw ad in
  well_formed r /\
  left (meta r) = lon_min ad /\ right (meta r) = lon_max ad /\
  bottom (meta r) = lat_min ad /\ top (meta r) = lat_max ad /\
  (res_x (transform (meta r)) <= res_deg)%Qc /\
  (res_y (transform (meta r)) <= res_deg)%Qc.
Proof.
  intros Hres Hgrid Hw Hh.
  destruct (@grid_definition_inv _ _ _ Hgrid) as [_ [Ew Eh]].
  destruct (@pixel_size_bounds _ _ _ Hres Ew Hw) as [Xpos [Xle Xcov]].
  destruct (@pixel_size_bounds _ _ _ Hres Eh Hh) as [Ypos [Yle Ycov]].
  cbv zeta. unfold well_formed, left, right, top, bottom, gridded_raster.
  cbn [meta band transform width height origin_x origin_y res_x res_y].
  repeat split; try assumption.
  - unfold resample. apply has_shape_tabulate.
  - unfold resample. apply has_shape_tabulate.
  - rewrite Xcov. ring.
  - rewrite Ycov. ring.
Qed.



(** ** Infinite coordinates *)

Lemma fmax_PInf_l (a : fval) : fmax PInf a = PInf.
Proof. now destruct a. Qed.

Lemma fmax_PInf_r (x : fval) : fmax x PInf = PInf.
Proof. now destruct x. Qed.

Lemma fmin_NInf_l (a : fval) : fmin NInf a = NInf.
Proof. now destruct a. Qed.

Lemma fmin_NInf_r (x : fval) : fmin x NInf = NInf.
Proof. now destruct x. Qed.

Lemma fold_fmax_has_PInf (t : list fval) (x : fval) :
  In PInf (x :: t) -> fold_left fmax t x = PInf.
Proof.
  revert x. induction t as [ | a t IH]; intros x H.
  - destruct H as [-> | []]. reflexivity.
  - simpl. apply IH. destruct H as [-> | [-> | H]].
    + left. now rewrite fmax_PInf_l.
    + left. now rewrite fmax_PInf_r.
    + now right.
Qed.

Lemma fold_fmin_has_NInf (t : list fval) (x : fval) :
  In NInf (x :: t) -> fold_left fmin t x = NInf.
Proof.
  revert x. induction t as [ | a t IH]; intros x H.
  - destruct H as [-> | []]. reflexivity.
  - simpl. apply IH. destruct H as [-> | [-> | H]].
    + left. now rewrite fmin_NInf_l.
    + left. now rewrite fmin_NInf_r.
    + now right.
Qed.

Lemma extent_with_infinity (l : list fval) :
  (exists v, In v l /\ isinf v = true) ->
  nanmin l = Some NInf \/ nanmax l = Some PInf.
Proof.
  intros [v [Hin Hv]]. destruct l as [ | x t]; [contradiction | ].
  destruct v; try discriminate.
  - left. unfold nanmin. now rewrite fold_fmin_has_NInf.
  - right. unfold nanmax. now rewrite fold_fmax_has_PInf.
Qed.

Lemma arange_len_NInf (stop : fval) (step : Qc) : arange_len NInf stop step = None.
Proof. reflexivity. Qed.

Lemma arange_len_PInf (start : fval) (step : Qc) : arange_len start PInf step = None.
Proof. now destruct start. Qed.

Lemma grid_definition_infinite (sw : Swath) (res_deg : Qc) :
  (exists p, In p sw /\ (isinf (lat p) = true \/ isinf (lon p) = true)) ->
  grid_definition sw res_deg = None.
Proof.
  intros [p [Hp Hinf]]. unfold grid_definition.
  destruct (nanmin (map lat sw)) as [la0 | ] eqn:A0; [ | reflexivity].
  destruct (nanmax (map lat sw)) as [la1 | ] eqn:A1; [ | reflexivity].
  destruct (nanmin (map lon sw)) as [lo0 | ] eqn:O0; [ | reflexivity].
  destruct (nanmax (map lon sw)) as [lo1 | ] eqn:O1; [ | reflexivity].
  destruct Hinf as [Hinf | Hinf].
  - destruct (@extent_with_infinity (map lat sw)) as [E | E].
    { exists (lat p). split; [now apply in_map | exact Hinf]. }
    + rewrite A0 in E. injection E as ->. reflexivity.
    + rewrite A1 in E. injection E as ->.
      rewrite arange_len_PInf. reflexivity.
  - destruct (@extent_with_infinity (map lon sw)) as [E | E].
    { exists (lon p). split; [now apply in_map | exact Hinf]. }
    + rewrite O0 in E. injection E as ->.
      destruct (arange_len la0 la1 res_deg); reflexivity.
    + rewrite O1 in E. injection E as ->. rewrite arange_len_PInf.
      destruct (arange_len la0 la1 res_deg); reflexivity.
Qed.

(** An infinite latitude or longitude anywhere in a swath that has valid
    pixels makes [create_geotiff_from_swath] raise [ValueError] before
    anything is written, and the loop of step 3, which has no handler, stops
    at that product. *)
Theorem infinite_coordinate_stops_step3
  (dist : Qc * Qc -> Qc * Qc -> Qc) (sw : Swath) (out_name : string)
  (res_deg : Qc) (name : string) (rest : list Product) (w : world) :
  mask_sum sw <> 0%nat ->
  (exists p, In p sw /\ (isinf (lat p) = true \/ isinf (lon p) = true)) ->
  create_geotiff_from_swath dist sw out_name res_deg w = (Raise ValueError, w) /\
  step3 dist ({| sen3_name := name; netcdf := Some sw |} :: rest) w
  = (Raise ValueError, w).
Proof.
  intros Hmask Hinf.
  assert (E : forall n r, create_geotiff_from_swath dist sw n r w
                          = (Raise ValueError, w)).
  { intros n r. unfold create_geotiff_from_swath.
    apply Nat.eqb_neq in Hmask. rewrite Hmask.
    now rewrite grid_definition_infinite. }
  split; [apply E | ].
  unfold step3. cbn [for_each netcdf sen3_name]. unfold bind at 1.
  now rewrite E.
Qed.

(** On a swath with one position at infinity. *)
Lemma infinite_coordinate_stops_step3_witness :
  create_geotiff_from_swath flat_dist swath_inf "TSM_A.SEN3.tif" OUTPUT_RES_DEG
    empty_world = (Raise ValueError, empty_world) /\
  step3 flat_dist
    ({| sen3_name := "A.SEN3"; netcdf := Some swath_inf |} :: two_products)
    empty_world
  = (Raise ValueError, empty_world).
Proof.
  apply (@infinite_coordinate_stops_step3 flat_dist swath_inf "TSM_A.SEN3.tif"
           OUTPUT_RES_DEG "A.SEN3" two_products empty_world).
  - vm_compute. discriminate.
  - exists {| tsm := NaN; lat := PInf; lon := Fin (Q2Qc 1) |}.
    split; [right; left; reflexivity | left; reflexivity].
Defined.

(** ** The nearest neighbour *)

Section NearestFacts.

Variable dist : Qc * Qc -> Qc * Qc -> Qc.

Lemma nearest_keeps_a_best (c : Qc * Qc) (sw : Swath) (b : Qc * fval) :
  exists r, nearest dist c sw (Some b) = Some r.
Proof.
  revert b. induction sw as [ | p rest IH]; intro b; simpl.
  - now exists b.
  - destruct b as [d0 v0].
    destruct (candidate dist c p) as [[d v] | ]; [ | apply IH].
    destruct (Qclt_bool d d0); apply IH.
Qed.

Lemma nearest_none_iff (c : Qc * Qc) (sw : Swath) :
  nearest dist c sw None = None
  <-> forall p, In p sw -> candidate dist c p = None.
Proof.
  induction sw as [ | p rest IH]; simpl.
  - split; [intros _ p [] | reflexivity].
  - destruct (candidate dist c p) as [dv | ] eqn:E.
    + split.
      * intro H. destruct dv as [d v].
        destruct (nearest_keeps_a_best c rest (d, v)) as [r Hr]. congruence.
      * intro H. specialize (H p (or_introl eq_refl)). congruence.
    + rewrite IH. split.
      * intros H q [<- | Hq]; [exact E | now apply H].
      * intros H q Hq. apply H. now right.
Qed.

End NearestFacts.

(** A cell of the resampled array is the fill value NaN when no pixel of the
    swath is a candidate for it (a valid position closer than the radius);
    otherwise it holds the measurement of a candidate that no other
    candidate beats in distance, be that measurement NaN or not. *)
Theorem resample_takes_the_nearest_or_fills
  (dist : Qc * Qc -> Qc * Qc -> Qc) (sw : Swath) (ad : AreaDefinition)
  (i j : nat) :
  (i < area_height ad)%nat -> (j < area_width ad)%nat ->
  let c := (cell_lon ad j, cell_lat ad i) in
  ((forall p, In p sw -> candidate dist c p = None) ->
   get2 (resample dist sw ad) i j = NaN) /\
  (forall p d v, In p sw -> candidate dist c p = Some (d, v) ->
     exists q d',
       In q sw /\
       candidate dist c q = Some (d', get2 (resample dist sw ad) i j) /\
       (d' <= d)%Qc).
Proof.
  intros Hi Hj c. unfold resample. rewrite get2_tabulate by assumption.
  unfold sample. fold c. split.
  - intro H. apply nearest_none_iff in H. now rewrite H.
  - intros p d v Hp Hc.
    destruct (nearest dist c sw None) as [[d' v'] | ] eqn:E.
    + destruct (nearest_origin _ _ _ _ E) as [Hb | [q [Hq Hcq]]];
        [discriminate | ].
      exists q, d'. split; [exact Hq | split; [exact Hcq | ]].
      destruct (nearest_closest _ _ _ _ E) as [_ Hmin]. exact (Hmin p d v Hp Hc).
    + rewrite nearest_none_iff in E. rewrite (E p Hp) in Hc. discriminate.
Qed.

(** On the only cell of [unit_area]. *)
Lemma resample_takes_the_nearest_or_fills_witness :
  ((forall p, In p swath1 ->
      candidate flat_dist (cell_lon unit_area 0, cell_lat unit_area 0) p = None) ->
   get2 (resample flat_dist swath1 unit_area) 0 0 = NaN) /\
  (forall p d v, In p swath1 ->
     candidate flat_dist (cell_lon unit_area 0, cell_lat unit_area 0) p
     = Some (d, v) ->
     exists q d',
       In q swath1 /\
       candidate flat_dist (cell_lon unit_area 0, cell_lat unit_area 0) q
       = Some (d', get2 (resample flat_dist swath1 unit_area) 0 0) /\
       (d' <= d)%Qc).
Proof.
  apply (@resample_takes_the_nearest_or_fills flat_dist swath1 unit_area 0 0).
  - simpl. lia.
  - simpl. lia.
Defined.

(** ** An invariant of the run: every stored raster is well formed *)

Lemma write_raster_well_formed (d : dir) (n : string) (r : Raster) (w : world) :
  stored_well_formed w -> well_formed r ->
  stored_well_formed (snd (write_raster d n r w)).
Proof.
  unfold stored_well_formed. intros Hw Hr. rewrite Forall_forall in *.
  intros f Hf. apply write_raster_files in Hf.
  destruct Hf as [-> | [Hf _]]; [exact Hr | now apply Hw].
Qed.

Lemma bind_invariant {A B} (I : world -> Prop) (m : M A) (k : A -> M B)
  (w : world) :
  I (snd (m w)) -> (forall a w', I w' -> I (snd (k a w'))) ->
  I (snd (bind m k w)).
Proof.
  intros Hm Hk. unfold bind. destruct (m w) as [[a | e] w']; simpl in *.
  - now apply Hk.
  - exact Hm.
Qed.

Lemma for_each_invariant {A} (P : A -> Prop) (I : world -> Prop)
  (body : A -> M unit) (l : list A) :
  Forall P l ->
  (forall x w, P x -> I w -> I (snd (body x w))) ->
  forall w, I w -> I (snd (for_each l body w)).
Proof.
  intros Hl Hbody. induction Hl as [ | x l Hx _ IH]; intros w Hw; simpl.
  - exact Hw.
  - apply bind_invariant; [now apply Hbody | intros _ w' Hw'; now apply IH].
Qed.

Lemma tif_files_In (d : dir) (w : world) (n : string) (r : Raster) :
  In (n, r) (tif_files d w) -> In (d, n, r) (files w).
Proof.
  unfold tif_files. intro H. apply in_map_iff in H.
  destruct H as [[[d' n'] r'] [E Hin]]. simpl in E. injection E as -> ->.
  apply filter_In in Hin. destruct Hin as [Hin Hd]. simpl in Hd.
  apply andb_true_iff in Hd. destruct Hd as [Hd _].
  apply dir_eqb_eq in Hd. now subst d'.
Qed.

Lemma tif_files_well_formed (d : dir) (w : world) :
  stored_well_formed w ->
  Forall (fun t => well_formed (snd t)) (tif_files d w).
Proof.
  unfold stored_well_formed. intro H. rewrite Forall_forall in *.
  intros [n r] Hin. apply tif_files_In in Hin. exact (H _ Hin).
Qed.

Lemma create_geotiff_well_formed (dist : Qc * Qc -> Qc * Qc -> Qc)
  (sw : Swath) (out_name : string) (res_deg : Qc) (w : world) :
  (Q2Qc 0 < res_deg)%Qc -> stored_well_formed w ->
  stored_well_formed (snd (create_geotiff_from_swath dist sw out_name res_deg w)).
Proof.
  intros Hres Hw. unfold create_geotiff_from_swath.
  destruct (mask_sum sw =? 0)%nat; [exact Hw | ].
  destruct (grid_definition sw res_deg) as [ad | ] eqn:Hgrid; [ | exact Hw].
  destruct (area_width ad =? 0)%nat eqn:Ew; [exact Hw | ].
  destruct (area_height ad =? 0)%nat eqn:Eh; [exact Hw | ].
  apply Nat.eqb_neq in Ew, Eh. cbn [orb].
  apply bind_invariant; [ | intros _ w' Hw'; exact Hw'].
  apply write_raster_well_formed; [exact Hw | ].
  apply (@gridded_raster_well_formed dist sw res_deg ad); (assumption || lia).
Qed.

Lemma reclassify_well_formed (r : Raster) :
  well_formed r -> well_formed (reclassify_negative_to_zero r).
Proof.
  intros [Hs Hres]. split; [ | exact Hres]. simpl. now apply has_shape_map.
Qed.

Lemma rio_clip_well_formed (Geometry : Type)
  (covers : Geometry -> Qc -> Qc -> bool) (r c : Raster) (g : Geometry) :
  well_formed r -> rio_clip covers r g = Ok c -> well_formed c.
Proof.
  intros [_ Hres] H. unfold rio_clip in H.
  destruct (first_true _) as [i0 | ]; [ | discriminate].
  destruct (last_true _) as [i1 | ]; [ | discriminate].
  destruct (first_true _) as [j0 | ]; [ | discriminate].
  destruct (last_true _) as [j1 | ]; [ | discriminate].
  injection H as <-. split; [apply has_shape_tabulate | exact Hres].
Qed.

Lemma composite_well_formed (group : list Raster)
  (arr : array2) (shape : nat * nat) (t : GeoTransform) (m : Meta) :
  Forall well_formed group ->
  merge_and_average group = Ok (arr, shape, t, m) ->
  well_formed (composite_raster arr shape t m).
Proof.
  intros Hall H. destruct group as [ | first others]; [discriminate | ].
  unfold merge_and_average in H.
  unfold merge_grid in H. injection H as <- <- <- <-.
  inversion Hall as [ | ? ? [_ Hres] _]; subst.
  split; [apply has_shape_tabulate | exact Hres].
Qed.

Lemma group_of_In {A} (key : string) (l : list A) (g : list (string * list A)) :
  NoDup (map fst g) -> In (key, l) g -> group_of key g = l.
Proof.
  induction g as [ | [k l'] g IH]; intros Hnd Hin; [contradiction | ].
  inversion Hnd as [ | ? ? Hk Hnd']; subst. simpl.
  destruct Hin as [E | Hin].
  - injection E as -> ->. now rewrite String.eqb_refl.
  - destruct (String.eqb k key) eqn:E; [ | now apply IH].
    apply String.eqb_eq in E. subst k. exfalso. apply Hk.
    change key with (fst (key, l)). now apply in_map.
Qed.

Lemma group_members_come_from_files {A} (files : list (string * A))
  (key : string) (l : list A) :
  In (key, l) (group_files files []) ->
  forall x, In x l -> In x (map snd files).
Proof.
  intros Hin x Hx.
  destruct (@group_files_invariant A files [] (NoDup_nil _) (Forall_nil _))
    as [Hnd [_ Hgroup]].
  rewrite <- (@group_of_In _ _ _ _ Hnd Hin), Hgroup in Hx. simpl in Hx.
  apply in_map_iff in Hx. destruct Hx as [nf [<- Hnf]].
  apply filter_In in Hnf. apply in_map. tauto.
Qed.

Section RunInvariant.

Variable dist : Qc * Qc -> Qc * Qc -> Qc.
Variable Geometry : Type.
Variable to_crs : string -> string -> Geometry -> Geometry.
Variable covers : Geometry -> Qc -> Qc -> bool.

Lemma step3_well_formed (products : list Product) (w : world) :
  stored_well_formed w -> stored_well_formed (snd (step3 dist products w)).
Proof.
  unfold step3. apply (@for_each_invariant _ (fun _ => True) stored_well_formed).
  - now apply Forall_forall.
  - intros p w0 _ Hw0. destruct (netcdf p); [ | exact Hw0].
    now apply create_geotiff_well_formed.
Qed.

Lemma step4_well_formed (w : world) :
  stored_well_formed w -> stored_well_formed (snd (step4 w)).
Proof.
  intro Hw. unfold step4, bind at 1, glob_tif.
  apply (@for_each_invariant _ (fun t => well_formed (snd t)) stored_well_formed).
  - now apply tif_files_well_formed.
  - intros t w0 Ht Hw0. apply write_raster_well_formed; [exact Hw0 | ].
    now apply reclassify_well_formed.
  - exact Hw.
Qed.

Lemma step5_well_formed (roi : ROI Geometry) (w : world) :
  stored_well_formed w ->
  stored_well_formed (snd (step5 to_crs covers roi w)).
Proof.
  intro Hw. unfold step5, bind at 1, glob_tif.
  apply (@for_each_invariant _ (fun t => well_formed (snd t)) stored_well_formed).
  - now apply tif_files_well_formed.
  - intros t w0 Ht Hw0. unfold clip_geotiff.
    destruct (rio_clip covers (snd t) _) as [c | e] eqn:E; [ | exact Hw0].
    apply write_raster_well_formed; [exact Hw0 | ].
    exact (@rio_clip_well_formed _ _ _ _ _ Ht E).
  - exact Hw.
Qed.

Lemma step6_well_formed (w : world) :
  stored_well_formed w -> stored_well_formed (snd (step6 w)).
Proof.
  intro Hw. rewrite step6_unfold.
  apply (@for_each_invariant _ (fun g => Forall well_formed (snd g)) stored_well_formed).
  - rewrite Forall_forall. intros [key l] Hin. simpl.
    rewrite Forall_forall. intros r Hr.
    pose proof (@group_members_come_from_files _ _ _ _ Hin r Hr) as Hfile.
    apply in_map_iff in Hfile. destruct Hfile as [[n r'] [E Hnr]].
    simpl in E. subst r'.
    pose proof (@tif_files_well_formed clip_dir _ Hw) as Hall.
    rewrite Forall_forall in Hall. apply (Hall (n, r)).
    unfold visible_tif_files in Hnr. apply filter_In in Hnr. apply Hnr.
  - intros g w0 Hg Hw0. unfold write_composite.
    destruct (merge_and_average (snd g)) as [[[[arr shape] t] m] | e] eqn:E;
      [ | exact Hw0].
    apply write_raster_well_formed; [exact Hw0 | ].
    exact (@composite_well_formed _ _ _ _ _ Hg E).
  - exact Hw.
Qed.

(** Whatever its outcome, a run of [main] that starts from well-formed
    rasters leaves only well-formed rasters behind: in every raster it
    writes, gridded, reclassified, clipped or composite, the band has the
    shape the profile announces and both pixel sizes are positive. *)
Theorem main_keeps_rasters_well_formed
  (products : list Product) (roi : ROI Geometry) (w : world) :
  stored_well_formed w ->
  stored_well_formed (snd (main dist to_crs covers products roi w)).
Proof.
  intro Hw. unfold main.
  apply bind_invariant; [exact Hw | intros _ w1 Hw1].
  apply bind_invariant; [now apply step3_well_formed | intros _ w2 Hw2].
  apply bind_invariant; [exact Hw2 | intros _ w3 Hw3].
  apply bind_invariant; [now apply step4_well_formed | intros _ w4 Hw4].
  apply bind_invariant; [exact Hw4 | intros _ w5 Hw5].
  apply bind_invariant; [now apply step5_well_formed | intros _ w6 Hw6].
  apply bind_invariant; [exact Hw6 | intros _ w7 Hw7].
  apply bind_invariant; [now apply step6_well_formed | intros _ w8 Hw8].
  exact Hw8.
Qed.

End RunInvariant.

(** On a run that starts with two gridded rasters on disk. *)
Lemma main_keeps_rasters_well_formed_witness :
  stored_well_formed
    (snd (main flat_dist box_to_crs box_covers two_products near_roi
            gridded_world)).
Proof.
  apply (@main_keeps_rasters_well_formed flat_dist Box box_to_crs box_covers
           two_products near_roi gridded_world).
  unfold stored_well_formed, gridded_world. simpl.
  constructor; [ | constructor; [ | constructor]].
  - split; [repeat split | ]; [repeat constructor | split; reflexivity].
  - exact well_formed_pass_a.
Defined.

(** ** What the clip keeps *)

Lemma first_true_spec (l : list bool) (i : nat) :
  first_true l = Some i ->
  (i < List.length l)%nat /\ nth i l false = true /\
  forall k, nth k l false = true -> (i <= k)%nat.
Proof.
  revert i. induction l as [ | b l IH]; intros i H; [discriminate | ].
  destruct b; simpl in H.
  - injection H as <-. simpl. repeat split; lia.
  - destruct (first_true l) as [i' | ]; [ | discriminate].
    injection H as <-. destruct (IH i' eq_refl) as [H1 [H2 H3]].
    simpl. repeat split; [lia | exact H2 | ].
    intros [ | k] Hk; [discriminate | ]. apply le_n_S. now apply H3.
Qed.

Lemma nth_false_overflow (l : list bool) (k : nat) :
  nth k l false = true -> (k < List.length l)%nat.
Proof.
  intro H. destruct (Nat.lt_ge_cases k (List.length l)) as [L | L]; [exact L | ].
  rewrite nth_overflow in H by assumption. discriminate.
Qed.

Lemma last_true_spec (l : list bool) (i : nat) :
  last_true l = Some i ->
  (i < List.length l)%nat /\ nth i l false = true /\
  forall k, nth k l false = true -> (k <= i)%nat.
Proof.
  unfold last_true. intro H.
  destruct (first_true (rev l)) as [k0 | ] eqn:E; [ | discriminate].
  injection H as <-.
  destruct (first_true_spec _ E) as [H1 [H2 H3]].
  rewrite length_rev in H1.
  split; [lia | split].
  - rewrite rev_nth in H2 by assumption.
    replace (List.length l - 1 - k0)%nat with (List.length l - S k0)%nat by lia.
    exact H2.
  - intros k Hk. pose proof (nth_false_overflow _ _ Hk) as Lk.
    assert (Hr : nth (List.length l - S k) (rev l) false = true).
    { rewrite rev_nth by lia.
      replace (List.length l - S (List.length l - S k))%nat with k by lia.
      exact Hk. }
    apply H3 in Hr. lia.
Qed.

Lemma nth_map_seq (f : nat -> bool) (n k : nat) :
  (k < n)%nat -> nth k (map f (seq 0 n)) false = f k.
Proof.
  intro H. rewrite (nth_indep _ false (f 0%nat))
    by (now rewrite length_map, length_seq).
  rewrite (map_nth f (seq 0 n) 0%nat k). now rewrite seq_nth.
Qed.

Lemma existsb_seq_true (f : nat -> bool) (n k : nat) :
  (k < n)%nat -> f k = true -> existsb f (seq 0 n) = true.
Proof.
  intros Hk Hf. apply existsb_exists. exists k. split; [ | exact Hf].
  apply in_seq. lia.
Qed.

Lemma read_write_nan_sentinel (v : fval) :
  write_masked (Some NaN) (read_masked (Some NaN) v) = v.
Proof. destruct v; reflexivity. Qed.

(** A successful clip of a raster whose no-data value is NaN returns a
    window of that raster, on the same lattice and in the same CRS: inside
    the window a pixel whose centre the region covers keeps its value and
    the others are NaN; and no covered pixel of the raster is left outside
    the window. *)
Theorem rio_clip_keeps_the_covered_pixels
  (Geometry : Type) (covers : Geometry -> Qc -> Qc -> bool)
  (r c : Raster) (g : Geometry) :
  nodata (meta r) = Some NaN ->
  rio_clip covers r g = Ok c ->
  exists i0 j0,
    window_of r c i0 j0 /\
    crs (meta c) = crs (meta r) /\ nodata (meta c) = Some NaN /\
    (forall i j, (i < height (meta c))%nat -> (j < width (meta c))%nat ->
       get2 (band c) i j
       = if clip_mask covers (meta r) g (i0 + i) (j0 + j)
         then get2 (band r) (i0 + i) (j0 + j) else NaN) /\
    (forall i j, (i < height (meta r))%nat -> (j < width (meta r))%nat ->
       clip_mask covers (meta r) g i j = true ->
       (i0 <= i < i0 + height (meta c))%nat /\
       (j0 <= j < j0 + width (meta c))%nat).
Proof.
  intros Hnd H. unfold rio_clip in H. cbv zeta in H.
  destruct (first_true (map (row_has covers (meta r) g) (seq 0 (height (meta r)))))
    as [i0 | ] eqn:Ei0; [ | discriminate].
  destruct (last_true (map (row_has covers (meta r) g) (seq 0 (height (meta r)))))
    as [i1 | ] eqn:Ei1; [ | discriminate].
  destruct (first_true (map (col_has covers (meta r) g) (seq 0 (width (meta r)))))
    as [j0 | ] eqn:Ej0; [ | discriminate].
  destruct (last_true (map (col_has covers (meta r) g) (seq 0 (width (meta r)))))
    as [j1 | ] eqn:Ej1; [ | discriminate].
  injection H as <-.
  destruct (first_true_spec _ Ei0) as [A1 [A2 A3]].
  destruct (last_true_spec _ Ei1) as [B1 [B2 B3]].
  destruct (first_true_spec _ Ej0) as [C1 [C2 C3]].
  destruct (last_true_spec _ Ej1) as [D1 [D2 D3]].
  rewrite length_map, length_seq in A1, B1, C1, D1.
  assert (Hi : (i0 <= i1)%nat) by (apply A3; exact B2).
  assert (Hj : (j0 <= j1)%nat) by (apply C3; exact D2).
  exists i0, j0. unfold window_of.
  cbn [meta band width height transform origin_x origin_y res_x res_y crs nodata].
  split; [repeat split; lia | ].
  split; [reflexivity | split; [exact Hnd | split]].
  - intros i j Hi' Hj'. rewrite get2_tabulate by assumption.
    rewrite Hnd. destruct (clip_mask covers (meta r) g (i0 + i) (j0 + j)).
    + apply read_write_nan_sentinel.
    + reflexivity.
  - intros i j Hi' Hj' Hm.
    assert (Hrow : nth i (map (row_has covers (meta r) g)
                            (seq 0 (height (meta r)))) false = true).
    { rewrite nth_map_seq by assumption. unfold row_has.
      now apply existsb_seq_true with (k := j). }
    assert (Hcol : nth j (map (col_has covers (meta r) g)
                            (seq 0 (width (meta r)))) false = true).
    { rewrite nth_map_seq by assumption. unfold col_has.
      now apply existsb_seq_true with (k := i). }
    pose proof (A3 _ Hrow). pose proof (B3 _ Hrow).
    pose proof (C3 _ Hcol). pose proof (D3 _ Hcol). lia.
Qed.

(** On the clip of [sample_raster] to its two eastern pixels. *)
Lemma rio_clip_keeps_the_covered_pixels_witness :
  exists i0 j0,
    window_of sample_raster sample_clipped i0 j0 /\
    crs (meta sample_clipped) = crs (meta sample_raster) /\
    nodata (meta sample_clipped) = Some NaN /\
    (forall i j, (i < height (meta sample_clipped))%nat ->
                 (j < width (meta sample_clipped))%nat ->
       get2 (band sample_clipped) i j
       = if clip_mask box_covers (meta sample_raster) east_box (i0 + i) (j0 + j)
         then get2 (band sample_raster) (i0 + i) (j0 + j) else NaN) /\
    (forall i j, (i < height (meta sample_raster))%nat ->
                 (j < width (meta sample_raster))%nat ->
       clip_mask box_covers (meta sample_raster) east_box i j = true ->
       (i0 <= i < i0 + height (meta sample_clipped))%nat /\
       (j0 <= j < j0 + width (meta sample_clipped))%nat).
Proof.
  apply (@rio_clip_keeps_the_covered_pixels Box box_covers sample_raster
           sample_clipped east_box).
  - reflexivity.
  - vm_compute. reflexivity.
Defined.

(** ** Steps 4 and 5 as loops over a folder *)

Lemma tif_files_names_NoDup (d : dir) (w : world) :
  unique_paths w -> NoDup (map fst (tif_files d w)).
Proof.
  unfold unique_paths, tif_files. rewrite map_map. cbn [fst].
  induction (files w) as [ | [[d' n'] r'] l IH]; intro H; [constructor | ].
  inversion H as [ | ? ? Hnot Hl]; subst. cbn [filter fst snd].
  destruct (dir_eqb d d' && ends_with ".tif" n') eqn:E; [ | now apply IH].
  cbn [map fst snd]. constructor; [ | now apply IH].
  intro Hin. apply in_map_iff in Hin. destruct Hin as [[[d2 n2] r2] [En Hin]].
  cbn [fst snd] in En. subst n2. apply filter_In in Hin.
  destruct Hin as [Hin E2]. cbn [fst snd] in E2.
  apply andb_true_iff in E, E2. destruct E as [E _]. destruct E2 as [E2 _].
  apply dir_eqb_eq in E, E2. subst d' d2.
  apply Hnot. cbn [fst]. change (d, n') with (fst (d, n', r2)).
  now apply in_map.
Qed.

Section FolderLoop.

Variable D : dir.
Variable F : Raster -> result Raster.

Lemma through_all_spec (l : list (string * Raster)) :
  NoDup (map fst l) ->
  Forall (fun t => exists c, F (snd t) = Ok c) l ->
  forall w,
    fst (for_each l (through D F) w) = Ok tt /\
    stdout (snd (for_each l (through D F) w)) = stdout w /\
    forall f,
      In f (files (snd (for_each l (through D F) w)))
      <-> (exists n r c, In (n, r) l /\ F r = Ok c /\ f = (D, n, c)) \/
          (In f (files w) /\
           (fst (fst f) <> D \/ ~ In (snd (fst f)) (map fst l))).
Proof.
  induction l as [ | [n r] l IH]; intros Hnd Hall w.
  - simpl. split; [reflexivity | split; [reflexivity | ]]. intro f. split.
    + intro H. right. split; [exact H | now right].
    + intros [[n [r [c [[] _]]]] | [H _]]. exact H.
  - inversion Hnd as [ | ? ? Hn Hnd']; subst.
    inversion Hall as [ | ? ? [c Hc] Hall']; subst. cbn [snd] in Hc.
    cbn [for_each]. unfold bind.
    assert (Hbody : through D F (n, r) w = write_raster D n c w).
    { unfold through. cbn [fst snd]. now rewrite Hc. }
    rewrite Hbody.
    set (wa := snd (write_raster D n c w)).
    change (write_raster D n c w) with (Ok tt, wa).
    destruct (IH Hnd' Hall' wa) as [H1 [H2 H3]].
    split; [exact H1 | split; [exact H2 | ]].
    intro f. rewrite H3. unfold wa. rewrite write_raster_files.
    cbn [map fst]. split.
    + intros [[n' [r' [c' [Hin [Hc' ->]]]]] | [[-> | [Hin Hp]] Hf]].
      * left. exists n', r', c'. repeat split; [now right | exact Hc'].
      * left. exists n, r, c. repeat split; [now left | exact Hc].
      * right. split; [exact Hin | ].
        destruct Hf as [Hf | Hf]; [now left | ].
        destruct (dir_eqb (fst (fst f)) D) eqn:Ed; [right | left].
        -- apply dir_eqb_eq in Ed. intros [E | Hin']; [ | contradiction].
           apply Hp. destruct f as [[d0 n0] r0]. cbn [fst snd] in *. now subst.
        -- intro E. rewrite E in Ed. destruct D; discriminate.
    + intros [[n' [r' [c' [[E | Hin] [Hc' ->]]]]] | [Hin Hf]].
      * injection E as <- <-. right. rewrite Hc in Hc'. injection Hc' as <-.
        split; [now left | ]. right. cbn [fst snd]. exact Hn.
      * left. exists n', r', c'. auto.
      * right. split.
        -- right. split; [exact Hin | ].
           intro E. destruct f as [[d0 n0] r0]. cbn [fst snd] in *.
           injection E as -> ->.
           destruct Hf as [Hf | Hf]; [now apply Hf | apply Hf; now left].
        -- destruct Hf as [Hf | Hf]; [now left | right].
           intro Hin'. apply Hf. now right.
Qed.

End FolderLoop.

(** Step 4 never raises and prints nothing: it writes the reclassified
    version of every gridded raster under the same name in the reclassified
    folder, and leaves every other folder as it is. *)
Theorem step4_reclassifies_every_gridded_raster (w : world) :
  unique_paths w ->
  fst (step4 w) = Ok tt /\
  stdout (snd (step4 w)) = stdout w /\
  (forall n r, In (n, r) (tif_files geotiff_dir w) ->
     In (recl_dir, n, reclassify_negative_to_zero r) (files (snd (step4 w)))) /\
  (forall d n r, d <> recl_dir ->
     (In (d, n, r) (files (snd (step4 w))) <-> In (d, n, r) (files w))).
Proof.
  intro Hu.
  assert (E : step4 w
              = for_each (tif_files geotiff_dir w)
                  (through recl_dir (fun r => Ok (reclassify_negative_to_zero r)))
                  w) by reflexivity.
  rewrite E.
  destruct (@through_all_spec recl_dir
              (fun r => Ok (reclassify_negative_to_zero r))
              (tif_files geotiff_dir w)
              (tif_files_names_NoDup geotiff_dir Hu)) with (w := w)
    as [H1 [H2 H3]].
  { apply Forall_forall. intros t _. now eexists. }
  split; [exact H1 | split; [exact H2 | split]].
  - intros n r Hin. apply H3. left. exists n, r, (reclassify_negative_to_zero r).
    auto.
  - intros d n r Hd. rewrite H3. split.
    + intros [[n' [r' [c [_ [_ E']]]]] | [Hin _]]; [ | exact Hin].
      injection E' as -> _ _. contradiction.
    + intro Hin. right. split; [exact Hin | now left].
Qed.

(** On a folder of two gridded rasters. *)
Lemma step4_reclassifies_every_gridded_raster_witness :
  fst (step4 gridded_world) = Ok tt /\
  stdout (snd (step4 gridded_world)) = stdout gridded_world /\
  (forall n r, In (n, r) (tif_files geotiff_dir gridded_world) ->
     In (recl_dir, n, reclassify_negative_to_zero r)
        (files (snd (step4 gridded_world)))) /\
  (forall d n r, d <> recl_dir ->
     (In (d, n, r) (files (snd (step4 gridded_world)))
      <-> In (d, n, r) (files gridded_world))).
Proof.
  apply (@step4_reclassifies_every_gridded_raster gridded_world).
  unfold unique_paths. simpl.
  repeat constructor; simpl; intuition discriminate.
Defined.

(** When every reclassified raster has a pixel centre inside the region,
    step 5 returns normally and prints nothing: it writes the clip of every
    reclassified raster under the same name in the clipped folder, and
    leaves every other folder as it is. *)
Theorem step5_clips_every_raster_when_all_overlap
  (Geometry : Type) (to_crs : string -> string -> Geometry -> Geometry)
  (covers : Geometry -> Qc -> Qc -> bool) (roi : ROI Geometry) (w : world) :
  unique_paths w ->
  (forall n r, In (n, r) (tif_files recl_dir w) ->
     exists c, rio_clip covers r (roi_in_raster_crs to_crs (meta r) roi) = Ok c) ->
  fst (step5 to_crs covers roi w) = Ok tt /\
  stdout (snd (step5 to_crs covers roi w)) = stdout w /\
  (forall n r c, In (n, r) (tif_files recl_dir w) ->
     rio_clip covers r (roi_in_raster_crs to_crs (meta r) roi) = Ok c ->
     In (clip_dir, n, c) (files (snd (step5 to_crs covers roi w)))) /\
  (forall d n r, d <> clip_dir ->
     (In (d, n, r) (files (snd (step5 to_crs covers roi w)))
      <-> In (d, n, r) (files w))).
Proof.
  intros Hu Hall.
  set (F := fun r => rio_clip covers r (roi_in_raster_crs to_crs (meta r) roi)).
  assert (E : step5 to_crs covers roi w
              = for_each (tif_files recl_dir w) (through clip_dir F) w)
    by reflexivity.
  rewrite E.
  destruct (@through_all_spec clip_dir F (tif_files recl_dir w)
              (tif_files_names_NoDup recl_dir Hu)) with (w := w)
    as [H1 [H2 H3]].
  { apply Forall_forall. intros [n r] Hin. exact (Hall n r Hin). }
  split; [exact H1 | split; [exact H2 | split]].
  - intros n r c Hin Hc. apply H3. left. exists n, r, c. auto.
  - intros d n r Hd. rewrite H3. split.
    + intros [[n' [r' [c [_ [_ E']]]]] | [Hin _]]; [ | exact Hin].
      injection E' as -> _ _. contradiction.
    + intro Hin. right. split; [exact Hin | now left].
Qed.

(** On two reclassified rasters and a region that covers both. *)
Lemma step5_clips_every_raster_when_all_overlap_witness :
  fst (step5 box_to_crs box_covers near_roi recl_world) = Ok tt /\
  stdout (snd (step5 box_to_crs box_covers near_roi recl_world))
  = stdout recl_world /\
  (forall n r c, In (n, r) (tif_files recl_dir recl_world) ->
     rio_clip box_covers r (roi_in_raster_crs box_to_crs (meta r) near_roi) = Ok c ->
     In (clip_dir, n, c)
        (files (snd (step5 box_to_crs box_covers near_roi recl_world)))) /\
  (forall d n r, d <> clip_dir ->
     (In (d, n, r) (files (snd (step5 box_to_crs box_covers near_roi recl_world)))
      <-> In (d, n, r) (files recl_world))).
Proof.
  apply (@step5_clips_every_raster_when_all_overlap Box box_to_crs box_covers
           near_roi recl_world).
  - unfold unique_paths. simpl.
    repeat constructor; simpl; intuition discriminate.
  - intros n r H. simpl in H.
    destruct H as [E | [E | []]]; injection E as <- <-.
    + destruct (rio_clip box_covers sample_raster
                  (roi_in_raster_crs box_to_crs (meta sample_raster) near_roi))
        as [c | e] eqn:Ec; [now exists c | ].
      vm_compute in Ec. discriminate.
    + destruct (rio_clip box_covers pass_a
                  (roi_in_raster_crs box_to_crs (meta pass_a) near_roi))
        as [c | e] eqn:Ec; [now exists c | ].
      vm_compute in Ec. discriminate.
Defined.

(** ** Which exceptions a run can end with *)







(** ** The extent of a merge *)

Lemma fold_Qcmin_below (l : list Qc) (a : Qc) :
  (fold_left Qcmin l a <= a)%Qc /\
  forall x, In x l -> (fold_left Qcmin l a <= x)%Qc.
Proof.
  revert a. induction l as [ | y l IH]; intro a; simpl.
  - split; [apply Qcle_refl | intros x []].
  - destruct (IH (Qcmin a y)) as [H1 H2].
    assert (Hm : (Qcmin a y <= a)%Qc /\ (Qcmin a y <= y)%Qc).
    { unfold Qcmin. destruct (Qcle_bool a y) eqn:E.
      - split; [apply Qcle_refl | now apply Qcle_bool_iff].
      - split; [now apply Qcle_bool_false | apply Qcle_refl]. }
    split.
    + eapply Qcle_trans; [exact H1 | apply Hm].
    + intros x [<- | Hx]; [ | now apply H2].
      eapply Qcle_trans; [exact H1 | apply Hm].
Qed.

Lemma fold_Qcmax_above (l : list Qc) (a : Qc) :
  (a <= fold_left Qcmax l a)%Qc /\
  forall x, In x l -> (x <= fold_left Qcmax l a)%Qc.
Proof.
  revert a. induction l as [ | y l IH]; intro a; simpl.
  - split; [apply Qcle_refl | intros x []].
  - destruct (IH (Qcmax a y)) as [H1 H2].
    assert (Hm : (a <= Qcmax a y)%Qc /\ (y <= Qcmax a y)%Qc).
    { unfold Qcmax. destruct (Qcle_bool a y) eqn:E.
      - split; [now apply Qcle_bool_iff | apply Qcle_refl].
      - split; [apply Qcle_refl | now apply Qcle_bool_false]. }
    split.
    + eapply Qcle_trans; [apply Hm | exact H1].
    + intros x [<- | Hx]; [ | now apply H2].
      eapply Qcle_trans; [apply Hm | exact H1].
Qed.

Lemma fold_Qcmin_In (l : list Qc) (a : Qc) : In (fold_left Qcmin l a) (a :: l).
Proof.
  revert a. induction l as [ | y l IH]; intro a; simpl; [now left | ].
  destruct (IH (Qcmin a y)) as [E | Hin]; [ | right; right; exact Hin].
  rewrite <- E. unfold Qcmin. destruct (Qcle_bool a y); [now left | right; now left].
Qed.

Lemma fold_Qcmax_In (l : list Qc) (a : Qc) : In (fold_left Qcmax l a) (a :: l).
Proof.
  revert a. induction l as [ | y l IH]; intro a; simpl; [now left | ].
  destruct (IH (Qcmax a y)) as [E | Hin]; [ | right; right; exact Hin].
  rewrite <- E. unfold Qcmax. destruct (Qcle_bool a y); [right; now left | now left].
Qed.

(** The lattice of a merge starts at the western and northern edges of the
    union of the sources: its origin is west of, or at, the left edge of
    every source and north of, or at, its top edge; it is the left edge of
    one of the sources and the top edge of one of them; and its pixel size
    is that of the first source. *)
Theorem merge_grid_starts_at_the_union_corner
  (first : Raster) (others : list Raster) :
  let t := snd (merge_grid first others) in
  (forall src, In src (first :: others) ->
     (origin_x t <= left (meta src))%Qc /\ (top (meta src) <= origin_y t)%Qc) /\
  (exists src, In src (first :: others) /\ origin_x t = left (meta src)) /\
  (exists src, In src (first :: others) /\ origin_y t = top (meta src)) /\
  res_x t = res_x (transform (meta first)) /\
  res_y t = res_y (transform (meta first)).
Proof.
  cbv zeta. unfold merge_grid. cbn [snd origin_x origin_y res_x res_y].
  split; [ | split; [ | split; [ | split; reflexivity]]].
  - intros src Hsrc.
    destruct (fold_Qcmin_below (map left (map meta others)) (left (meta first)))
      as [L1 L2].
    destruct (fold_Qcmax_above (map top (map meta others)) (top (meta first)))
      as [T1 T2].
    destruct Hsrc as [<- | Hsrc]; [now split | ]. split.
    + apply L2. rewrite map_map. now apply (in_map (fun r => left (meta r))).
    + apply T2. rewrite map_map. now apply (in_map (fun r => top (meta r))).
  - destruct (fold_Qcmin_In (map left (map meta others)) (left (meta first)))
      as [E | Hin].
    + exists first. split; [now left | exact (eq_sym E)].
    + rewrite map_map in Hin. apply in_map_iff in Hin.
      destruct Hin as [src [E Hsrc]].
      exists src. split; [now right | rewrite map_map; exact (eq_sym E)].
  - destruct (fold_Qcmax_In (map top (map meta others)) (top (meta first)))
      as [E | Hin].
    + exists first. split; [now left | exact (eq_sym E)].
    + rewrite map_map in Hin. apply in_map_iff in Hin.
      destruct Hin as [src [E Hsrc]].
      exists src. split; [now right | rewrite map_map; exact (eq_sym E)].
Qed.

(** ** Seasons *)

(** The seasonal aggregation labels a time by the name of its season alone:
    every array of the stack whose month falls in a season is a member of
    the group of that season, whatever its year. *)
Theorem seasonal_groups_pool_the_years
  (datetime : Type)
  (floor_day week_start month_start year_start : datetime -> datetime)
  (month_of : datetime -> nat) (datetime_eqb : datetime -> datetime -> bool)
  (ds : list (datetime * array2)) (t : datetime) (a : array2) (season : string) :
  In (t, a) ds ->
  get_season (month_of t) = season ->
  In a (members floor_day week_start month_start year_start month_of
          datetime_eqb "seasonal" ds (@Season datetime season)).
Proof.
  intros Hin Hs. unfold members. apply in_map_iff. exists (t, a).
  split; [reflexivity | ]. apply filter_In. split; [exact Hin | ].
  cbn [fst]. unfold period_of. cbn [String.eqb Ascii.eqb Bool.eqb andb].
  rewrite Hs. cbn [period_eqb]. apply String.eqb_refl.
Qed.

(** January 2018 and February 2019 fall in the same group. *)
Lemma seasonal_groups_pool_the_years_witness :
  In (band pass_b)
     (members (fun t => t) (fun t => t) (fun t => t) (fun t => t) snd
        year_month_eqb "seasonal" two_winters (@Season year_month "Winter")).
Proof.
  apply (@seasonal_groups_pool_the_years year_month
           (fun t => t) (fun t => t) (fun t => t) (fun t => t) snd
           year_month_eqb two_winters (2019%nat, 2%nat) (band pass_b) "Winter").
  - right. left. reflexivity.
  - reflexivity.
Defined.

(** ** Step 2: what the cleaning leaves *)

Lemma clean_folder_spec (content : list (string * kind)) (t : tally) :
  clean_folder content t
  = (filter (fun e => negb (unwanted e)) content,
     {| deleted := deleted t + count_if unwanted content;
        kept := kept t
                + count_if (fun e => isfile (snd e) && to_keep (fst e)) content |}).
Proof.
  unfold count_if. revert t.
  induction content as [ | [f k] rest IH]; intro t.
  - simpl. rewrite !Nat.add_0_r. now destruct t.
  - cbn [clean_folder filter].
    change (unwanted (f, k)) with (isfile k && negb (to_keep f)).
    cbn [fst snd].
    destruct (isfile k); destruct (to_keep f);
      cbn [andb negb]; rewrite IH; cbn [deleted kept List.length];
      (apply f_equal2; [reflexivity | apply f_equal2; lia]).
Qed.

Lemma clean_folders_spec (base : list (string * entry)) (t : tally) :
  clean_folders base t
  = (map cleaned base,
     {| deleted := deleted t + regular_files base unwanted;
        kept := kept t
                + regular_files base
                    (fun x => isfile (snd x) && to_keep (fst x)) |},
     map (fun e => ("📂 " ++ fst e)%string) (filter is_product base)).
Proof.
  revert t. induction base as [ | [folder e] rest IH]; intro t.
  - unfold regular_files. simpl. rewrite !Nat.add_0_r. now destruct t.
  - assert (Hr : forall p,
               regular_files ((folder, e) :: rest) p
               = ((if is_product (folder, e)
                   then count_if p (content_of (folder, e)) else 0)
                  + regular_files rest p)%nat) by reflexivity.
    rewrite !Hr. clear Hr. cbn [map filter].
    destruct e as [ | content | ].
    + change (cleaned (folder, File)) with (folder, File).
      change (is_product (folder, File)) with false.
      cbn [clean_folders]. rewrite IH. cbv beta iota zeta. cbn [deleted kept].
      (apply f_equal2; [apply f_equal2; [reflexivity | apply f_equal2; lia]
                       | reflexivity]).
    + change (is_product (folder, Folder content))
        with (ends_with ".SEN3" folder).
      change (content_of (folder, Folder content)) with content.
      unfold cleaned. 
      change (is_product (folder, Folder content))
        with (ends_with ".SEN3" folder).
      change (content_of (folder, Folder content)) with content.
      cbn [clean_folders fst].
      destruct (ends_with ".SEN3" folder).
      * rewrite clean_folder_spec, IH. cbv beta iota zeta.
        cbn [deleted kept map fst].
        (apply f_equal2; [apply f_equal2; [reflexivity | apply f_equal2; lia]
                         | reflexivity]).
      * rewrite IH. cbv beta iota zeta. cbn [deleted kept].
        (apply f_equal2; [apply f_equal2; [reflexivity | apply f_equal2; lia]
                         | reflexivity]).
    + change (cleaned (folder, Special)) with (folder, Special).
      change (is_product (folder, Special)) with false.
      cbn [clean_folders]. rewrite IH. cbv beta iota zeta. cbn [deleted kept].
      (apply f_equal2; [apply f_equal2; [reflexivity | apply f_equal2; lia]
                       | reflexivity]).
Qed.

(** After the cleaning the base directory has the same entries under the
    same names; only product folders have changed, and in a product folder
    exactly the regular files that are not on the list are gone: every
    regular file left is on the list, and the listed files, the
    sub-directories and everything else are still there, in their order. *)
Theorem cleanup_removes_exactly_the_unlisted_files
  (base : list (string * entry)) :
  let base' := fst (fst (cleanup_netcdf_files base)) in
  base' = map cleaned base /\
  map fst base' = map fst base /\
  (forall folder content f,
     In (folder, Folder content) base' -> ends_with ".SEN3" folder = true ->
     In (f, regular_file) content -> In f FILES_TO_KEEP) /\
  (forall e, In e base -> is_product e = false -> In e base').
Proof.
  cbv zeta. unfold cleanup_netcdf_files. rewrite clean_folders_spec.
  cbn [fst]. split; [reflexivity | split; [ | split]].
  - rewrite map_map. apply map_ext. intro e. unfold cleaned.
    now destruct (is_product e).
  - intros folder content f Hin Hsen Hf.
    apply in_map_iff in Hin. destruct Hin as [e [He Hin]].
    unfold cleaned in He. destruct (is_product e) eqn:Ep.
    + injection He as <- <-. apply filter_In in Hf. destruct Hf as [_ Hf].
      unfold unwanted in Hf. cbn [fst snd isfile andb] in Hf.
      apply negb_true_iff, negb_false_iff in Hf.
      unfold to_keep in Hf. apply existsb_exists in Hf.
      destruct Hf as [x [Hx E]]. apply String.eqb_eq in E. now subst x.
    + subst e. unfold is_product in Ep. cbn [fst snd] in Ep. congruence.
  - intros e He Hp. apply in_map_iff. exists e. split; [ | exact He].
    unfold cleaned. now rewrite Hp.
Qed.

(** The counters tell what happened: [deleted] is the number of regular
    files off the list met in the product folders, [kept] the number of
    those on the list, so together they count the regular files of the
    product folders; and the last line printed gives the two numbers. *)
Theorem cleanup_counts_the_regular_files (base : list (string * entry)) :
  let '(_, t, out) := cleanup_netcdf_files base in
  deleted t = regular_files base unwanted /\
  kept t = regular_files base (fun x => isfile (snd x) && to_keep (fst x)) /\
  (deleted t + kept t = regular_files base (fun x => isfile (snd x)))%nat /\
  last out EmptyString
  = ("STEP 2 COMPLETE: Deleted " ++ string_of_nat (deleted t)
     ++ ", kept " ++ string_of_nat (kept t))%string.
Proof.
  unfold cleanup_netcdf_files. rewrite clean_folders_spec. cbn [deleted kept].
  split; [reflexivity | split; [reflexivity | split]].
  - induction base as [ | e base IH]; [reflexivity | ].
    assert (Hr : forall p,
               regular_files (e :: base) p
               = ((if is_product e then count_if p (content_of e) else 0)
                  + regular_files base p)%nat) by reflexivity.
    rewrite !Hr. destruct (is_product e); [ | lia].
    assert (Hc : forall l : list (string * kind),
               (count_if unwanted l
                + count_if (fun x => isfile (snd x) && to_keep (fst x)) l
                = count_if (fun x => isfile (snd x)) l)%nat).
    { unfold count_if. induction l as [ | [f k] l IHl]; [reflexivity | ].
      cbn [filter]. change (unwanted (f, k)) with (isfile k && negb (to_keep f)).
      cbn [fst snd].
      destruct (isfile k); destruct (to_keep f); cbn [andb negb List.length];
        lia. }
    specialize (Hc (content_of e)). lia.
  - apply last_last.
Qed.

Lemma filter_idempotent {A} (f : A -> bool) (l : list A) :
  filter f (filter f l) = filter f l.
Proof.
  induction l as [ | x l IH]; [reflexivity | ]. cbn [filter].
  destruct (f x) eqn:E; [ | exact IH]. cbn [filter]. now rewrite E, IH.
Qed.

Lemma cleaned_product (folder : string) (content : list (string * kind)) :
  cleaned (folder, Folder content)
  = if ends_with ".SEN3" folder
    then (folder, Folder (filter (fun x => negb (unwanted x)) content))
    else (folder, Folder content).
Proof. reflexivity. Qed.

Lemma cleaned_idempotent (e : string * entry) : cleaned (cleaned e) = cleaned e.
Proof.
  destruct e as [folder [ | content | ]]; try reflexivity.
  rewrite cleaned_product.
  destruct (ends_with ".SEN3" folder) eqn:Es; rewrite cleaned_product, Es.
  - now rewrite filter_idempotent.
  - reflexivity.
Qed.

Lemma no_unwanted_after (l : list (string * kind)) :
  count_if unwanted (filter (fun x => negb (unwanted x)) l) = 0%nat.
Proof.
  unfold count_if. induction l as [ | x l IH]; [reflexivity | ]. cbn [filter].
  destruct (unwanted x) eqn:Ex; cbn [negb filter]; [exact IH | ].
  now rewrite Ex.
Qed.

Lemma listed_after (l : list (string * kind)) :
  count_if (fun x => isfile (snd x) && to_keep (fst x))
    (filter (fun x => negb (unwanted x)) l)
  = count_if (fun x => isfile (snd x) && to_keep (fst x)) l.
Proof.
  unfold count_if. induction l as [ | [f k] l IH]; [reflexivity | ].
  cbn [filter]. change (unwanted (f, k)) with (isfile k && negb (to_keep f)).
  cbn [fst snd].
  destruct (isfile k) eqn:Ek; destruct (to_keep f) eqn:Ef;
    cbn [andb negb filter fst snd]; rewrite ?Ek, ?Ef; cbn [andb List.length];
    now rewrite IH.
Qed.

Lemma regular_files_cons (e : string * entry) (base : list (string * entry))
  (p : string * kind -> bool) :
  regular_files (e :: base) p
  = ((if is_product e then count_if p (content_of e) else 0)
     + regular_files base p)%nat.
Proof. reflexivity. Qed.

Lemma regular_files_cleaned (base : list (string * entry)) :
  regular_files (map cleaned base) unwanted = 0%nat /\
  regular_files (map cleaned base)
    (fun x => isfile (snd x) && to_keep (fst x))
  = regular_files base (fun x => isfile (snd x) && to_keep (fst x)).
Proof.
  induction base as [ | [folder e] base [IH1 IH2]]; [split; reflexivity | ].
  cbn [map]. rewrite !regular_files_cons, IH1, IH2.
  destruct e as [ | content | ]; try (split; reflexivity).
  rewrite cleaned_product.
  change (is_product (folder, Folder content)) with (ends_with ".SEN3" folder).
  destruct (ends_with ".SEN3" folder) eqn:Es.
  - change (is_product (folder, Folder (filter (fun x => negb (unwanted x)) content)))
      with (ends_with ".SEN3" folder).
    rewrite Es.
    change (content_of (folder, Folder (filter (fun x => negb (unwanted x)) content)))
      with (filter (fun x => negb (unwanted x)) content).
    change (content_of (folder, Folder content)) with content.
    now rewrite no_unwanted_after, listed_after.
  - change (is_product (folder, Folder content)) with (ends_with ".SEN3" folder).
    rewrite Es. split; reflexivity.
Qed.

(** Cleaning a second time changes nothing and deletes nothing. *)
Theorem cleanup_is_idempotent (base : list (string * entry)) :
  let base' := fst (fst (cleanup_netcdf_files base)) in
  fst (fst (cleanup_netcdf_files base')) = base' /\
  deleted (snd (fst (cleanup_netcdf_files base'))) = 0%nat /\
  kept (snd (fst (cleanup_netcdf_files base')))
  = kept (snd (fst (cleanup_netcdf_files base))).
Proof.
  cbv zeta. unfold cleanup_netcdf_files. rewrite !clean_folders_spec.
  cbn [fst snd deleted kept]. rewrite ?clean_folders_spec.
  cbn [fst snd deleted kept].
  destruct (regular_files_cleaned base) as [H1 H2].
  split; [ | split].
  - rewrite map_map. apply map_ext. apply cleaned_idempotent.
  - exact H1.
  - exact H2.
Qed.
